(** * Speaking-order resolution and the speaker-turn state machine

    A shallow embedding of the debate-room procedures [room.start] and
    [room.advanceSpeaker] (src/server/routers.ts), of the database helpers
    they call (db.ts, kept in src/todo.md) and of the tables they touch
    (src/drizzle/schema.ts), followed by the properties of the turn state
    machine. *)

From Stdlib Require Import ZArith List Bool Lia Sorted.
From stdpp Require Import base decidable countable gmap sets list strings pretty.

Local Open Scope string_scope.
Local Open Scope Z_scope.

(** ** Roles, teams and the format definition *)

(** The [role] strings of the speaking order: six speaker roles and the two
    reply speeches. *)
Inductive Role :=
  | prime_minister
  | leader_of_opposition
  | deputy_prime_minister
  | deputy_leader_of_opposition
  | government_whip
  | opposition_whip
  | opposition_reply
  | government_reply.

#[global] Instance Role_eq_dec : EqDecision Role.
Proof. solve_decision. Defined.

Definition Role_code (r : Role) : nat :=
  match r with
  | prime_minister => 0
  | leader_of_opposition => 1
  | deputy_prime_minister => 2
  | deputy_leader_of_opposition => 3
  | government_whip => 4
  | opposition_whip => 5
  | opposition_reply => 6
  | government_reply => 7
  end%nat.

Definition Role_decode (n : nat) : Role :=
  match n with
  | 0 => prime_minister
  | 1 => leader_of_opposition
  | 2 => deputy_prime_minister
  | 3 => deputy_leader_of_opposition
  | 4 => government_whip
  | 5 => opposition_whip
  | 6 => opposition_reply
  | _ => government_reply
  end%nat.

#[global] Instance Role_countable : Countable Role.
Proof. apply (inj_countable' Role_code Role_decode). by intros []. Defined.

Inductive Team := government | opposition.

#[global] Instance Team_eq_dec : EqDecision Team.
Proof. solve_decision. Defined.

(** One entry of the speaking order: [{ role, team, label, time }]. *)
Record Speaker := {
  role : Role;
  team : Team;
  label : string;
  time : Z
}.

#[global] Instance Speaker_eq_dec : EqDecision Speaker.
Proof. solve_decision. Defined.

(** [SPEAKING_ORDER], src/drizzle/schema.ts lines 688-697. *)
Definition SPEAKING_ORDER : list Speaker := [
  {| role := prime_minister; team := government; label := "Prime Minister"; time := 420 |};
  {| role := leader_of_opposition; team := opposition; label := "Leader of Opposition"; time := 420 |};
  {| role := deputy_prime_minister; team := government; label := "Deputy Prime Minister"; time := 420 |};
  {| role := deputy_leader_of_opposition; team := opposition; label := "Deputy Leader of Opposition"; time := 420 |};
  {| role := government_whip; team := government; label := "Government Whip"; time := 420 |};
  {| role := opposition_whip; team := opposition; label := "Opposition Whip"; time := 420 |};
  {| role := opposition_reply; team := opposition; label := "Opposition Reply"; time := 240 |};
  {| role := government_reply; team := government; label := "Government Reply"; time := 240 |}
].

(** Modelled from the spec: the constant [ASIAN_PARLIAMENTARY_FORMAT] of
    [@shared/debate], which the server procedures read, is not among the
    sources.  Section 6 of the specification lists its [speakingOrder]: the
    eight slots prime_minister (420s, government), leader_of_opposition
    (420s, opposition), deputy_prime_minister (420s, government),
    deputy_leader_of_opposition (420s, opposition), government_whip (420s,
    government), opposition_whip (420s, opposition), opposition_reply (240s,
    opposition) and government_reply (240s, government), which is the list the
    client keeps as [SPEAKING_ORDER]. *)
Definition ASIAN_PARLIAMENTARY_FORMAT_speakingOrder : list Speaker :=
  SPEAKING_ORDER.

(** ** Tables (src/drizzle/schema.ts) *)

(** [mysqlEnum("status", ...)] of [debate_rooms]. *)
Module Status.
Inductive t := waiting | in_progress | completed | cancelled.
#[global] Instance eq_dec : EqDecision t.
Proof. solve_decision. Defined.
End Status.

(** [mysqlEnum("currentPhase", ...)] of [debate_rooms]. *)
Module Phase.
Inductive t := setup | debate | feedback | completed.
#[global] Instance eq_dec : EqDecision t.
Proof. solve_decision. Defined.

(** Position of a phase in the lifecycle setup, debate, feedback,
    completed. *)
Definition rank (p : t) : Z :=
  match p with setup => 0 | debate => 1 | feedback => 2 | completed => 3 end.
End Phase.

(** [mysqlEnum("speakerRole", ...)] of [debate_participants]: a participant
    holds one of the six speaker roles, never a reply slot. *)
Module SpeakerRole.
Inductive t :=
  | prime_minister
  | deputy_prime_minister
  | government_whip
  | leader_of_opposition
  | deputy_leader_of_opposition
  | opposition_whip.
#[global] Instance eq_dec : EqDecision t.
Proof. solve_decision. Defined.

End SpeakerRole.

(** The string a participant's role is compared with in the format. *)
Definition role_string (r : SpeakerRole.t) : Role :=
  match r with
  | SpeakerRole.prime_minister => prime_minister
  | SpeakerRole.deputy_prime_minister => deputy_prime_minister
  | SpeakerRole.government_whip => government_whip
  | SpeakerRole.leader_of_opposition => leader_of_opposition
  | SpeakerRole.deputy_leader_of_opposition => deputy_leader_of_opposition
  | SpeakerRole.opposition_whip => opposition_whip
  end.

(** Timestamps ([Date] values) are milliseconds since the epoch. *)
Definition Timestamp := Z.

(** A row of [debate_rooms].  The columns [format] (a one-valued enum),
    [createdAt] and [updatedAt] (maintained by MySQL) are read and written by
    no procedure modelled here and are left out. *)
Record DebateRoom := {
  id : Z;
  roomCode : string;
  creatorId : Z;
  motionId : option Z;
  status : Status.t;
  currentSpeakerIndex : option Z;
  currentPhase : Phase.t;
  startedAt : option Timestamp;
  endedAt : option Timestamp
}.

(** A row of [debate_participants] ([joinedAt] left out). *)
Record DebateParticipant := {
  participantId : Z;
  roomId : Z;
  userId : Z;
  participantTeam : Team;
  speakerRole : SpeakerRole.t;
  isReady : option bool
}.

(** [Partial<DebateRoom>] as passed to [updateDebateRoom]: the keys the
    procedures set; [None] is an absent key. *)
Record RoomUpdates := {
  set_status : option Status.t;
  set_currentPhase : option Phase.t;
  set_currentSpeakerIndex : option Z;
  set_startedAt : option Timestamp;
  set_endedAt : option Timestamp
}.

(** [UPDATE ... SET updates] on one row. *)
Definition apply_updates (u : RoomUpdates) (r : DebateRoom) : DebateRoom :=
  {| id := id r;
     roomCode := roomCode r;
     creatorId := creatorId r;
     motionId := motionId r;
     status := default (status r) (set_status u);
     currentSpeakerIndex :=
       match set_currentSpeakerIndex u with
       | Some i => Some i
       | None => currentSpeakerIndex r
       end;
     currentPhase := default (currentPhase r) (set_currentPhase u);
     startedAt :=
       match set_startedAt u with Some t => Some t | None => startedAt r end;
     endedAt :=
       match set_endedAt u with Some t => Some t | None => endedAt r end |}.

(** The database: whether [getDb()] yields a handle, and the two tables. *)
Record Store := {
  connected : bool;
  debateRooms : list DebateRoom;
  debateParticipants : list DebateParticipant
}.

(** ** Procedures: state passing with thrown errors *)

Inductive TRPCCode := NOT_FOUND | FORBIDDEN | BAD_REQUEST.

Record TRPCError := { code : TRPCCode; message : string }.

(** How a procedure call ends: it returns, it throws a [TRPCError], or an
    uncaught JavaScript [TypeError] escapes. *)
Inductive Outcome (A : Type) :=
  | Returned (a : A)
  | Thrown (e : TRPCError)
  | TypeError (what : string).
Arguments Returned {A} a.
Arguments Thrown {A} e.
Arguments TypeError {A} what.

Definition Proc (A : Type) : Type := Store -> Outcome A * Store.

Definition ret {A} (a : A) : Proc A := fun st => (Returned a, st).

Definition throw {A} (c : TRPCCode) (m : string) : Proc A :=
  fun st => (Thrown {| code := c; message := m |}, st).

Definition crash {A} (what : string) : Proc A :=
  fun st => (TypeError what, st).

Definition bind {A B} (m : Proc A) (k : A -> Proc B) : Proc B :=
  fun st =>
    match m st with
    | (Returned a, st') => k a st'
    | (Thrown e, st') => (Thrown e, st')
    | (TypeError w, st') => (TypeError w, st')
    end.

Notation "'let*' x ':=' m 'in' k" := (bind m (fun x => k))
  (at level 10, x name, m at level 100, k at level 200).

(** ** Database helpers (db.ts) *)

(** [getDebateRoomById]: [undefined] without a handle, else the first row
    with that id. *)
Definition getDebateRoomById (i : Z) : Proc (option DebateRoom) :=
  fun st =>
    if negb (connected st) then (Returned None, st)
    else (Returned (head (List.filter (fun r => id r =? i) (debateRooms st))), st).

(** [updateDebateRoom]: nothing without a handle, else
    [UPDATE debate_rooms SET updates WHERE id = roomId]. *)
Definition updateDebateRoom (i : Z) (updates : RoomUpdates) : Proc unit :=
  fun st =>
    if negb (connected st) then (Returned tt, st)
    else
      (Returned tt,
       {| connected := connected st;
          debateRooms :=
            (fun r => if id r =? i then apply_updates updates r else r)
              <$> debateRooms st;
          debateParticipants := debateParticipants st |}).

(** [getRoomParticipants]: [[]] without a handle, else the rows of the
    room. *)
Definition getRoomParticipants (i : Z) : Proc (list DebateParticipant) :=
  fun st =>
    if negb (connected st) then (Returned [], st)
    else (Returned (List.filter (fun p => roomId p =? i) (debateParticipants st)), st).

(** ** JavaScript helpers *)

(** [arr[i]] for an integer [i]: [undefined] out of range. *)
Definition at_index {A} (arr : list A) (i : Z) : option A :=
  if i <? 0 then None else arr !! Z.to_nat i.

(** [arr.findIndex(p)]: the first index whose element satisfies [p], or -1. *)
Fixpoint findIndex_from {A} (p : A -> bool) (arr : list A) (i : Z) : Z :=
  match arr with
  | [] => -1
  | x :: rest => if p x then i else findIndex_from p rest (i + 1)
  end.

Definition findIndex {A} (p : A -> bool) (arr : list A) : Z :=
  findIndex_from p arr 0.

(** [x || 0] on a nullable integer. *)
Definition or_zero (x : option Z) : Z :=
  match x with
  | None => 0
  | Some v => if v =? 0 then 0 else v
  end.

(** [!x] on a nullable integer: [null] and [0] are falsy. *)
Definition not_int (x : option Z) : bool :=
  match x with
  | None => true
  | Some v => v =? 0
  end.

(** Truthiness of a nullable boolean. *)
Definition truthy (b : option bool) : bool :=
  match b with
  | Some true => true
  | _ => false
  end.

(** [new Set(participants.map((p) => p.speakerRole))]. *)
Definition roles_of (participants : list DebateParticipant) : gset Role :=
  list_to_set ((fun p => role_string (speakerRole p)) <$> participants).

(** [participantRoles.has(r)]. *)
Definition has (participantRoles : gset Role) (r : Role) : bool :=
  bool_decide (r ∈ participantRoles).

(** ** room.start (src/server/routers.ts lines 258-338) *)

Record StartResult := { success : bool }.

(** The [for] loop of lines 301-328: [i] is the loop index, [rest] the
    entries from [i] on and [firstSpeakerIndex] the variable the loop assigns
    before it breaks. *)
Fixpoint firstSpeakerLoop (participantRoles : gset Role) (rest : list Speaker)
    (i firstSpeakerIndex : Z) : Z :=
  match rest with
  | [] => firstSpeakerIndex
  | speaker :: rest' =>
      let role := role speaker in
      if bool_decide (role = opposition_reply) then
        if has participantRoles leader_of_opposition then i
        else firstSpeakerLoop participantRoles rest' (i + 1) firstSpeakerIndex
      else if bool_decide (role = government_reply) then
        if has participantRoles prime_minister then i
        else firstSpeakerLoop participantRoles rest' (i + 1) firstSpeakerIndex
      else if has participantRoles role then i
      else firstSpeakerLoop participantRoles rest' (i + 1) firstSpeakerIndex
  end.

Definition start (ctx_user_id : Z) (input_roomId : Z) (now : Timestamp)
    : Proc StartResult :=
  let* room := getDebateRoomById input_roomId in
  match room with
  | None => throw NOT_FOUND "Room not found"
  | Some room =>
      if negb (creatorId room =? ctx_user_id) then
        throw FORBIDDEN "Only the room creator can start the debate"
      else if not_int (motionId room) then
        throw BAD_REQUEST "A motion must be set before starting"
      else
        let* participants := getRoomParticipants (id room) in
        if Z.of_nat (length participants) <? 1 then
          throw BAD_REQUEST "At least one participant must join before starting"
        else
          let allReady := forallb (fun p => truthy (isReady p)) participants in
          if negb allReady then
            throw BAD_REQUEST "All participants must be ready"
          else
            let participantRoles := roles_of participants in
            let fullSpeakingOrder := ASIAN_PARLIAMENTARY_FORMAT_speakingOrder in
            let firstSpeakerIndex :=
              firstSpeakerLoop participantRoles fullSpeakingOrder 0 0 in
            let* _done := updateDebateRoom input_roomId
              {| set_status := Some Status.in_progress;
                 set_currentPhase := Some Phase.debate;
                 set_currentSpeakerIndex := Some firstSpeakerIndex;
                 set_startedAt := Some now;
                 set_endedAt := None |} in
            ret {| success := true |}
  end.

(** ** room.advanceSpeaker (src/server/routers.ts lines 340-394) *)

Record AdvanceResult := {
  completed : bool;
  nextSpeakerIndex : option Z
}.

(** The callback of the [filter] of lines 356-365. *)
Definition is_active (participantRoles : gset Role) (speaker : Speaker) : bool :=
  if bool_decide (role speaker = opposition_reply) then
    has participantRoles leader_of_opposition
  else if bool_decide (role speaker = government_reply) then
    has participantRoles prime_minister
  else has participantRoles (role speaker).

(** [activeSpeakingOrder], the dynamic speaking order of lines 354-365. *)
Definition activeSpeakingOrder (fullSpeakingOrder : list Speaker)
    (participantRoles : gset Role) : list Speaker :=
  List.filter (is_active participantRoles) fullSpeakingOrder.

Definition advanceSpeaker (input_roomId : Z) (now : Timestamp)
    : Proc AdvanceResult :=
  let* room := getDebateRoomById input_roomId in
  match room with
  | None => throw NOT_FOUND "Room not found"
  | Some room =>
      let* participants := getRoomParticipants (id room) in
      let participantRoles := roles_of participants in
      let fullSpeakingOrder := ASIAN_PARLIAMENTARY_FORMAT_speakingOrder in
      let activeSpeakingOrder :=
        activeSpeakingOrder fullSpeakingOrder participantRoles in
      let currentSpeaker :=
        at_index fullSpeakingOrder (or_zero (currentSpeakerIndex room)) in
      let currentActiveIndex :=
        findIndex (fun s => bool_decide (Some (role s) = role <$> currentSpeaker))
                  activeSpeakingOrder in
      let nextActiveIndex := currentActiveIndex + 1 in
      if Z.of_nat (length activeSpeakingOrder) <=? nextActiveIndex then
        let* _done := updateDebateRoom input_roomId
          {| set_status := Some Status.completed;
             set_currentPhase := Some Phase.feedback;
             set_currentSpeakerIndex := None;
             set_startedAt := None;
             set_endedAt := Some now |} in
        ret {| completed := true; nextSpeakerIndex := None |}
      else
        match at_index activeSpeakingOrder nextActiveIndex with
        | None => crash "Cannot read properties of undefined (reading 'role')"
        | Some nextSpeaker =>
            let nextFullIndex :=
              findIndex (fun s => bool_decide (role s = role nextSpeaker))
                        fullSpeakingOrder in
            let* _done := updateDebateRoom input_roomId
              {| set_status := None;
                 set_currentPhase := None;
                 set_currentSpeakerIndex := Some nextFullIndex;
                 set_startedAt := None;
                 set_endedAt := None |} in
            ret {| completed := false; nextSpeakerIndex := Some nextFullIndex |}
        end
  end.

(** * Notions the properties are stated with *)

(** ** Observing the store *)

Abbreviation fullSpeakingOrder := ASIAN_PARLIAMENTARY_FORMAT_speakingOrder.

(** The room [getDebateRoomById] finds, the participants
    [getRoomParticipants] finds, and the store [updateDebateRoom] leaves. *)
Definition room_of (st : Store) (i : Z) : option DebateRoom :=
  match fst (getDebateRoomById i st) with
  | Returned r => r
  | _ => None
  end.

Definition roster (st : Store) (i : Z) : list DebateParticipant :=
  match fst (getRoomParticipants i st) with
  | Returned l => l
  | _ => []
  end.

Definition set_room (i : Z) (updates : RoomUpdates) (st : Store) : Store :=
  snd (updateDebateRoom i updates st).

(** The roles present in a room. *)
Definition present_roles (st : Store) (i : Z) : gset Role :=
  roles_of (roster st i).

(** The phase of a room. *)
Definition phase_of (st : Store) (i : Z) : option Phase.t :=
  currentPhase <$> room_of st i.

(** A motion is attached: [room.motionId] is truthy. *)
Definition motion_attached (room : DebateRoom) : Prop :=
  exists m, motionId room = Some m /\ m <> 0.

(** The slot [room.currentSpeakerIndex || 0] points at. *)
Definition current_speaker (room : DebateRoom) : option Speaker :=
  at_index fullSpeakingOrder (or_zero (currentSpeakerIndex room)).

(** The index [start] leaves in the room. *)
Definition started_index (c i : Z) (now : Timestamp) (st : Store) : option Z :=
  room_of (snd (start c i now st)) i ≫= currentSpeakerIndex.

(** What one call of [advanceSpeaker] decides for a roster and a stored
    index: [None] when the debate is completed, else the full-format index of
    the next speaker. *)
Definition next_index (participantRoles : gset Role) (stored : option Z)
    : option Z :=
  let active := activeSpeakingOrder fullSpeakingOrder participantRoles in
  let currentSpeaker := at_index fullSpeakingOrder (or_zero stored) in
  let nextActiveIndex :=
    findIndex (fun s => bool_decide (Some (role s) = role <$> currentSpeaker))
              active + 1 in
  if Z.of_nat (length active) <=? nextActiveIndex then None
  else
    nextSpeaker ← at_index active nextActiveIndex;
    Some (findIndex (fun s => bool_decide (role s = role nextSpeaker))
                    fullSpeakingOrder).

(** ** The filter rule in words *)

(** A regular slot is present iff its role is in the roster, a reply slot iff
    its anchor role is. *)
Definition slot_present (S : gset Role) (speaker : Speaker) : Prop :=
  match role speaker with
  | opposition_reply => leader_of_opposition ∈ S
  | government_reply => prime_minister ∈ S
  | r => r ∈ S
  end.

(** What makes a list the active order of a roster: a sub-sequence of the
    format (same relative order) with exactly the present slots. *)
Definition is_active_order (S : gset Role) (order : list Speaker) : Prop :=
  sublist order fullSpeakingOrder /\
  forall speaker, speaker ∈ fullSpeakingOrder ->
    (speaker ∈ order <-> slot_present S speaker).

(** ** Error kinds *)

(** The error kinds of the specification and the kind each tRPC code stands
    for: the procedures throw NOT_FOUND for a missing room, FORBIDDEN for a
    caller who is not the creator and BAD_REQUEST for the other
    preconditions; no code stands for an invalid state. *)
Inductive ErrorKind := NotFound | Forbidden | PreconditionFailed | InvalidState.

Definition kind_of (c : TRPCCode) : ErrorKind :=
  match c with
  | NOT_FOUND => NotFound
  | FORBIDDEN => Forbidden
  | BAD_REQUEST => PreconditionFailed
  end.

(** ** Series and sequences of calls *)

(** [advanceSpeaker] called once per timestamp, in order: the outcomes of
    the calls and the store they leave. *)
Fixpoint advance_calls (i : Z) (nows : list Timestamp) (st : Store)
    : list (Outcome AdvanceResult) * Store :=
  match nows with
  | [] => ([], st)
  | now :: rest =>
      let (o, st') := advanceSpeaker i now st in
      let (os, st'') := advance_calls i rest st' in
      (o :: os, st'')
  end.

(** The [nextSpeakerIndex] values a series of calls returned. *)
Definition returned_indices (os : list (Outcome AdvanceResult)) : list Z :=
  omap (fun o => match o with
                 | Returned r => nextSpeakerIndex r
                 | _ => None
                 end) os.

(** The [completed] flags a series of calls returned. *)
Definition completed_flags (os : list (Outcome AdvanceResult)) : list bool :=
  omap (fun o => match o with
                 | Returned r => Some (completed r)
                 | _ => None
                 end) os.

(** A call of one of the two procedures, by any user, on any room. *)
Inductive Call :=
  | CallStart (ctx_user_id input_roomId : Z) (now : Timestamp)
  | CallAdvanceSpeaker (input_roomId : Z) (now : Timestamp).

Definition call (c : Call) (st : Store) : Store :=
  match c with
  | CallStart u i now => snd (start u i now st)
  | CallAdvanceSpeaker i now => snd (advanceSpeaker i now st)
  end.

Definition calls (cs : list Call) (st : Store) : Store :=
  fold_left (fun st c => call c st) cs st.

Definition is_advance (c : Call) : Prop :=
  match c with
  | CallStart _ _ _ => False
  | CallAdvanceSpeaker _ _ => True
  end.

(** ** Scenarios *)

(** A room as [room.create] inserts it, once a motion has been attached. *)
Definition created_room (i creator motion : Z) : DebateRoom :=
  {| id := i; roomCode := "ABCDEF"; creatorId := creator;
     motionId := Some motion; status := Status.waiting;
     currentSpeakerIndex := Some 0; currentPhase := Phase.setup;
     startedAt := None; endedAt := None |}.

(** A participant of room 1 as [room.join] inserts it, with its ready flag. *)
Definition joined (n : Z) (t : Team) (r : SpeakerRole.t) (ready : bool)
    : DebateParticipant :=
  {| participantId := n; roomId := 1; userId := 100 + n;
     participantTeam := t; speakerRole := r; isReady := Some ready |}.

(** Room 1, created by user 101, with only the prime minister and the leader
    of the opposition, both ready. *)
Definition two_speaker_store : Store :=
  {| connected := true;
     debateRooms := [created_room 1 101 5];
     debateParticipants :=
       [joined 1 government SpeakerRole.prime_minister true;
        joined 2 opposition SpeakerRole.leader_of_opposition true] |}.

(** The two-speaker debate once it has reached its last slot: the state three
    calls of [advanceSpeaker] leave after [start]. *)
Definition last_slot_store : Store :=
  snd (advance_calls 1 [1001; 1002; 1003] (snd (start 101 1 500 two_speaker_store))).

(** The two-speaker debate once it is over: the state a fourth call of
    [advanceSpeaker] leaves. *)
Definition completed_store : Store :=
  snd (advanceSpeaker 1 1004 last_slot_store).

(** The completed two-speaker debate once the feedback is generated:
    [feedback.generate] ends with
    [updateDebateRoom(input.roomId, { currentPhase: "completed" })]
    (src/server/routers.ts line 1078). *)
Definition feedback_done_store : Store :=
  snd (updateDebateRoom 1
         {| set_status := None;
            set_currentPhase := Some Phase.completed;
            set_currentSpeakerIndex := None;
            set_startedAt := None;
            set_endedAt := None |} completed_store).

(** Room 1 with the prime minister ready and the leader of the opposition
    not ready. *)
Definition not_ready_store : Store :=
  {| connected := true;
     debateRooms := [created_room 1 101 5];
     debateParticipants :=
       [joined 1 government SpeakerRole.prime_minister true;
        joined 2 opposition SpeakerRole.leader_of_opposition false] |}.

(** Room 1 without prime minister and government whip: the deputy prime
    minister and the three opposition speakers joined, all ready. *)
Definition partial_roster_store : Store :=
  {| connected := true;
     debateRooms := [created_room 1 101 5];
     debateParticipants :=
       [joined 1 government SpeakerRole.deputy_prime_minister true;
        joined 2 opposition SpeakerRole.leader_of_opposition true;
        joined 3 opposition SpeakerRole.deputy_leader_of_opposition true;
        joined 4 opposition SpeakerRole.opposition_whip true] |}.

(** Room 1 in progress with a stored index that points outside the format. *)
Definition stale_index_store : Store :=
  {| connected := true;
     debateRooms :=
       [{| id := 1; roomCode := "ABCDEF"; creatorId := 101;
           motionId := Some 5; status := Status.in_progress;
           currentSpeakerIndex := Some 12; currentPhase := Phase.debate;
           startedAt := Some 500; endedAt := None |}];
     debateParticipants :=
       [joined 1 government SpeakerRole.deputy_prime_minister true;
        joined 2 opposition SpeakerRole.opposition_whip true] |}.

(** ** Stronger readings, which the code does not meet *)

(** In a room with a motion, a joined participant who is not ready makes
    [start] fail with a precondition failure, whoever calls, and leave the
    store as it is. *)
Definition unready_start_fails (c i : Z) (now : Timestamp) (st : Store) : Prop :=
  forall room p,
    room_of st i = Some room -> motion_attached room ->
    p ∈ roster st i -> isReady p = Some false ->
    exists e, fst (start c i now st) = Thrown e /\
      kind_of (code e) = PreconditionFailed /\
      snd (start c i now st) = st.

(** The debate is completed exactly on the [k]-th call of a series: that
    call returns [completed = true] and every earlier one
    [completed = false]. *)
Definition completes_exactly_on (k : nat) (os : list (Outcome AdvanceResult))
    : Prop :=
  take k (completed_flags os) = (replicate (k - 1) false ++ [true])%list.

(** Calling [advanceSpeaker] on a room that is not in progress changes
    nothing: no [TypeError] escapes and the room is as it was, as it is after
    a rejection and after a call without effect. *)
Definition advance_changes_nothing (i : Z) (now : Timestamp) (st : Store)
    : Prop :=
  forall room,
    room_of st i = Some room -> status room <> Status.in_progress ->
    (forall what, fst (advanceSpeaker i now st) <> TypeError what) /\
    room_of (snd (advanceSpeaker i now st)) i = Some room.

(** No call of a sequence moves the phase of a room to an earlier phase. *)
Definition phase_never_regresses (st : Store) (i : Z) : Prop :=
  forall cs c p p',
    phase_of (calls cs st) i = Some p ->
    phase_of (call c (calls cs st)) i = Some p' ->
    Phase.rank p <= Phase.rank p'.

(** * The procedures that manage the roster *)

(** ** Database helpers for rooms and participants (db.ts) *)

(** [getDebateRoomByCode].  How MySQL compares the [roomCode] column with the
    code it is given depends on the collation of the column, which the schema
    leaves to the server: the comparison is the parameter [same_code]. *)
Definition getDebateRoomByCode (same_code : string -> string -> bool)
    (code : string) : Proc (option DebateRoom) :=
  fun st =>
    if negb (connected st) then (Returned None, st)
    else
      (Returned
         (head (List.filter (fun r => same_code (roomCode r) code) (debateRooms st))),
       st).

(** [getParticipantWithUser]: [undefined] without a handle, else the first
    row of that user in that room. *)
Definition getParticipantWithUser (i u : Z) : Proc (option DebateParticipant) :=
  fun st =>
    if negb (connected st) then (Returned None, st)
    else
      (Returned
         (head (List.filter (fun p => (roomId p =? i) && (userId p =? u))
                            (debateParticipants st))),
       st).

(** [addParticipant]: without a handle an [Error] that no procedure catches
    (the outcome for uncaught exceptions carries its message); else the row
    is inserted under the id MySQL assigns, [insertId], which is returned. *)
Definition addParticipant (insertId : Z) (i u : Z) (t : Team)
    (r : SpeakerRole.t) (ready : option bool) : Proc Z :=
  fun st =>
    if negb (connected st) then crash "Database not available" st
    else
      (Returned insertId,
       {| connected := connected st;
          debateRooms := debateRooms st;
          debateParticipants :=
            (debateParticipants st ++
               [{| participantId := insertId; roomId := i; userId := u;
                   participantTeam := t; speakerRole := r;
                   isReady := ready |}])%list |}).

(** [updateParticipantReady]:
    [UPDATE debate_participants SET isReady WHERE id = participantId]. *)
Definition updateParticipantReady (pid : Z) (ready : bool) : Proc unit :=
  fun st =>
    if negb (connected st) then (Returned tt, st)
    else
      (Returned tt,
       {| connected := connected st;
          debateRooms := debateRooms st;
          debateParticipants :=
            (fun p =>
               if participantId p =? pid then
                 {| participantId := participantId p; roomId := roomId p;
                    userId := userId p; participantTeam := participantTeam p;
                    speakerRole := speakerRole p; isReady := Some ready |}
               else p) <$> debateParticipants st |}).

(** [removeParticipant]:
    [DELETE FROM debate_participants WHERE roomId = .. AND userId = ..]. *)
Definition removeParticipant (i u : Z) : Proc unit :=
  fun st =>
    if negb (connected st) then (Returned tt, st)
    else
      (Returned tt,
       {| connected := connected st;
          debateRooms := debateRooms st;
          debateParticipants :=
            List.filter (fun p => negb ((roomId p =? i) && (userId p =? u)))
                        (debateParticipants st) |}).

(** ** room.join (src/server/routers.ts lines 94-181) *)

Record JoinResult := { join_success : bool; join_roomId : Z }.

(** [arr.includes(x)]. *)
Definition includes {A} `{EqDecision A} (arr : list A) (x : A) : bool :=
  existsb (fun y => bool_decide (y = x)) arr.

(** The handler, on an input the validator has accepted: [input_team] and
    [input_speakerRole] range over the two enums (the validator also asks for
    six characters in [input_roomCode], which the handler does not rely on). *)
Definition join (same_code : string -> string -> bool) (ctx_user_id : Z)
    (input_roomCode : string) (input_team : Team)
    (input_speakerRole : SpeakerRole.t) (insertId : Z) : Proc JoinResult :=
  let* room := getDebateRoomByCode same_code input_roomCode in
  match room with
  | None => throw NOT_FOUND "Room not found"
  | Some room =>
      if negb (bool_decide (status room = Status.waiting)) then
        throw BAD_REQUEST "Room is not accepting participants"
      else
        let* existing := getParticipantWithUser (id room) ctx_user_id in
        match existing with
        | Some _ => throw BAD_REQUEST "You are already in this room"
        | None =>
            let* participants := getRoomParticipants (id room) in
            let roleTaken :=
              existsb (fun p => bool_decide (speakerRole p = input_speakerRole))
                      participants in
            if roleTaken then
              throw BAD_REQUEST "This speaker role is already taken"
            else
              let govRoles :=
                [SpeakerRole.prime_minister; SpeakerRole.deputy_prime_minister;
                 SpeakerRole.government_whip] in
              let oppRoles :=
                [SpeakerRole.leader_of_opposition;
                 SpeakerRole.deputy_leader_of_opposition;
                 SpeakerRole.opposition_whip] in
              if bool_decide (input_team = government)
                 && negb (includes govRoles input_speakerRole) then
                throw BAD_REQUEST "Invalid role for Government team"
              else if bool_decide (input_team = opposition)
                      && negb (includes oppRoles input_speakerRole) then
                throw BAD_REQUEST "Invalid role for Opposition team"
              else
                let* _id := addParticipant insertId (id room) ctx_user_id
                              input_team input_speakerRole (Some false) in
                ret {| join_success := true; join_roomId := id room |}
        end
  end.

(** ** room.leave (src/server/routers.ts lines 183-188) *)

(** The procedure answers [{ success: true }], the object [start] answers. *)
Definition leave (ctx_user_id : Z) (input_roomId : Z) : Proc StartResult :=
  let* _done := removeParticipant input_roomId ctx_user_id in
  ret {| success := true |}.

(** ** room.setReady (src/server/routers.ts lines 237-252) *)

Definition setReady (ctx_user_id : Z) (input_roomId : Z) (input_isReady : bool)
    : Proc StartResult :=
  let* participant := getParticipantWithUser input_roomId ctx_user_id in
  match participant with
  | None => throw NOT_FOUND "You are not in this room"
  | Some participant =>
      let* _done := updateParticipantReady (participantId participant) input_isReady in
      ret {| success := true |}
  end.

(** ** Rosters and sequences of room calls *)

(** The team of a speaker role, as the two lists of [join] have it. *)
Definition role_team (r : SpeakerRole.t) : Team :=
  match r with
  | SpeakerRole.prime_minister
  | SpeakerRole.deputy_prime_minister
  | SpeakerRole.government_whip => government
  | _ => opposition
  end.

(** A roster in which no role and no user occurs twice and every participant
    is on the team of its role. *)
Definition roster_wf (ps : list DebateParticipant) : Prop :=
  NoDup (speakerRole <$> ps) /\
  NoDup (userId <$> ps) /\
  Forall (fun p => participantTeam p = role_team (speakerRole p)) ps.

Definition rosters_wf (st : Store) : Prop :=
  forall i, roster_wf (roster st i).

(** The row [getParticipantWithUser] finds and the room
    [getDebateRoomByCode] finds. *)
Definition participant_of (st : Store) (i u : Z) : option DebateParticipant :=
  match fst (getParticipantWithUser i u st) with
  | Returned p => p
  | _ => None
  end.

Definition room_by_code (same_code : string -> string -> bool) (st : Store)
    (code : string) : option DebateRoom :=
  match fst (getDebateRoomByCode same_code code st) with
  | Returned r => r
  | _ => None
  end.

(** A call of one of the five room procedures, with what the environment
    supplies (the clock, the id MySQL assigns). *)
Inductive RoomCall :=
  | DoJoin (ctx_user_id : Z) (input_roomCode : string) (input_team : Team)
      (input_speakerRole : SpeakerRole.t) (insertId : Z)
  | DoLeave (ctx_user_id input_roomId : Z)
  | DoSetReady (ctx_user_id input_roomId : Z) (input_isReady : bool)
  | DoStart (ctx_user_id input_roomId : Z) (now : Timestamp)
  | DoAdvanceSpeaker (input_roomId : Z) (now : Timestamp).

Definition room_call (same_code : string -> string -> bool) (c : RoomCall)
    (st : Store) : Store :=
  match c with
  | DoJoin u code t r n => snd (join same_code u code t r n st)
  | DoLeave u i => snd (leave u i st)
  | DoSetReady u i b => snd (setReady u i b st)
  | DoStart u i now => snd (start u i now st)
  | DoAdvanceSpeaker i now => snd (advanceSpeaker i now st)
  end.

Definition room_calls (same_code : string -> string -> bool)
    (cs : list RoomCall) (st : Store) : Store :=
  fold_left (fun st c => room_call same_code c st) cs st.

(** The full-format index of a slot, as [advanceSpeaker] looks it up. *)
Definition full_index (speaker : Speaker) : Z :=
  findIndex (fun s => bool_decide (role s = role speaker)) fullSpeakingOrder.

(** The row [join] inserts. *)
Definition new_participant (n i u : Z) (t : Team) (r : SpeakerRole.t)
    : DebateParticipant :=
  {| participantId := n; roomId := i; userId := u; participantTeam := t;
     speakerRole := r; isReady := Some false |}.

(** A row with its ready flag set. *)
Definition with_ready (b : bool) (p : DebateParticipant) : DebateParticipant :=
  {| participantId := participantId p; roomId := roomId p; userId := userId p;
     participantTeam := participantTeam p; speakerRole := speakerRole p;
     isReady := Some b |}.

(** What [join] asks for: the code names a room that is waiting, the caller is
    not in it, the role is free and belongs to the team. *)
Definition may_join (same_code : string -> string -> bool) (st : Store)
    (u : Z) (code : string) (t : Team) (r : SpeakerRole.t) (room : DebateRoom)
    : Prop :=
  room_by_code same_code st code = Some room /\
  status room = Status.waiting /\
  participant_of st (id room) u = None /\
  (forall p, p ∈ roster st (id room) -> speakerRole p <> r) /\
  t = role_team r.

(** Room 1 as created, with a motion and nobody in it. *)
Definition empty_room_store : Store :=
  {| connected := true;
     debateRooms := [created_room 1 101 5];
     debateParticipants := [] |}.

(** Codes compared character by character. *)
Definition exact_code (a b : string) : bool := bool_decide (a = b).

(** A seat of a roster: who sits in it and in which role. *)
Definition seat (p : DebateParticipant) : Z * SpeakerRole.t :=
  (userId p, speakerRole p).

(** The role whose holder speaks in a slot: the role itself, and for a reply
    slot the role the filter of [advanceSpeaker] asks for. *)
Definition anchor_role (r : Role) : Role :=
  match r with
  | opposition_reply => leader_of_opposition
  | government_reply => prime_minister
  | r => r
  end.

(** Room 1 in progress with prime minister, leader of the opposition and
    deputy prime minister, the deputy prime minister having the floor. *)
Definition three_speaker_store : Store :=
  {| connected := true;
     debateRooms :=
       [{| id := 1; roomCode := "ABCDEF"; creatorId := 101;
           motionId := Some 5; status := Status.in_progress;
           currentSpeakerIndex := Some 2; currentPhase := Phase.debate;
           startedAt := Some 500; endedAt := None |}];
     debateParticipants :=
       [joined 1 government SpeakerRole.prime_minister true;
        joined 2 opposition SpeakerRole.leader_of_opposition true;
        joined 3 government SpeakerRole.deputy_prime_minister true] |}.

(** * The debate page (the [Debate] component of src/drizzle/schema.ts) *)

Module Debate.

(** What the page reads of the answer of [room.get]: the room and its
    participants. *)
Record RoomData := {
  room : DebateRoom;
  participants : list DebateParticipant
}.

(** [roomData?.room.currentSpeakerIndex || 0] (line 850). *)
Definition currentSpeakerIndex (roomData : option RoomData) : Z :=
  or_zero (roomData ≫= fun d => currentSpeakerIndex (room d)).

(** [SPEAKING_ORDER[currentSpeakerIndex]] (line 851). *)
Definition currentSpeaker (roomData : option RoomData) : option Speaker :=
  at_index SPEAKING_ORDER (currentSpeakerIndex roomData).

(** [new Set(roomData?.participants.map(p => p.speakerRole) || [])]
    (line 854). *)
Definition participantRoles (roomData : option RoomData) : gset Role :=
  roles_of (match roomData with
            | Some d => participants d
            | None => []
            end).

(** The active speaking order of the page (lines 855-863). *)
Definition activeSpeakingOrder (roomData : option RoomData) : list Speaker :=
  List.filter
    (fun speaker =>
       if bool_decide (role speaker = opposition_reply) then
         has (participantRoles roomData) leader_of_opposition
       else if bool_decide (role speaker = government_reply) then
         has (participantRoles roomData) prime_minister
       else has (participantRoles roomData) (role speaker))
    SPEAKING_ORDER.

(** The callback of the [find] of lines 865-869: the participant holds the
    role of the slot, or the anchor role of a reply slot. *)
Definition speaks_in (slot : option Speaker) (p : DebateParticipant) : bool :=
  bool_decide (Some (role_string (speakerRole p)) = role <$> slot)
  || (bool_decide (role <$> slot = Some opposition_reply)
      && bool_decide (speakerRole p = SpeakerRole.leader_of_opposition))
  || (bool_decide (role <$> slot = Some government_reply)
      && bool_decide (speakerRole p = SpeakerRole.prime_minister)).

Definition currentParticipant (roomData : option RoomData)
    : option DebateParticipant :=
  roomData ≫= fun d => List.find (speaks_in (currentSpeaker roomData)) (participants d).


(** [currentParticipant?.userId === user?.id] (line 872). *)
Definition isMyTurn (roomData : option RoomData) (user_id : option Z) : bool :=
  bool_decide (userId <$> currentParticipant roomData = user_id).



(** The header "Speech .. of .." (line 1315). *)
Definition speechNumber (roomData : option RoomData) : Z :=
  findIndex (fun s => bool_decide (Some (role s) = role <$> currentSpeaker roomData))
            (activeSpeakingOrder roomData) + 1.

Definition speechCount (roomData : option RoomData) : Z :=
  Z.of_nat (length (activeSpeakingOrder roomData)).

(** [s.padStart(targetLength, padString)]: [fill n padString rest] is the
    first [n] characters of [rest] followed by [padString] over and over. *)
Fixpoint fill (n : nat) (padString rest : string) : string :=
  match n with
  | O => ""
  | S n' =>
      match rest with
      | String c r => String c (fill n' padString r)
      | EmptyString =>
          match padString with
          | String c r => String c (fill n' padString r)
          | EmptyString => ""
          end
      end
  end.

Definition padStart (targetLength : nat) (padString s : string) : string :=
  if (targetLength <=? String.length s)%nat then s
  else fill (targetLength - String.length s) padString padString +:+ s.

(** [Number.MAX_SAFE_INTEGER], 2^53 - 1.  A JavaScript number is a double;
    on the whole numbers from [-MAX_SAFE_INTEGER] to [MAX_SAFE_INTEGER] the
    quotient by 60 rounded down, the remainder and the decimal notation are
    those of the integers, and beyond them they are not. *)
Definition MAX_SAFE_INTEGER : Z := 2 ^ 53 - 1.

(** [formatTime] (lines 710-714), on a whole number of seconds between
    [-MAX_SAFE_INTEGER] and [MAX_SAFE_INTEGER]: [Math.floor(seconds / 60)] is
    then the quotient rounded down, [seconds % 60] the remainder with the sign
    of [seconds], and both are written in decimal digits. *)
Definition formatTime (seconds : Z) : string :=
  let mins := seconds `div` 60 in
  let secs := Z.rem seconds 60 in
  pretty mins +:+ ":" +:+ padStart 2 "0" (pretty secs).

End Debate.

(** The number two decimal digits stand for. *)
Definition two_digits (s : string) : Z :=
  match s with
  | String a (String b EmptyString) =>
      10 * (Z.of_nat (Ascii.nat_of_ascii a) - 48) + (Z.of_nat (Ascii.nat_of_ascii b) - 48)
  | _ => -1
  end.

(** Room data as the page gets it for room [i] of a store. *)
Definition page_of (st : Store) (i : Z) (d : Debate.RoomData) : Prop :=
  room_of st i = Some (Debate.room d) /\ Debate.participants d = roster st i.

(** ** The live transcript of the debate page
    (src/drizzle/schema.ts lines 744-751 and 780-825) *)

Module LiveTranscript.

(** An entry of [liveTranscript] (lines 744-750). *)
Record Segment := {
  id : Z;
  speaker : string;
  text : string;
  timestamp : Z;
  sequenceNumber : Z
}.

(** The two pieces of state: [liveTranscript] and [lastSequence]. *)
Record PageState := {
  liveTranscript : list Segment;
  lastSequence : Z
}.

(** [useState([])] and [useState(0)]. *)
Definition initial : PageState :=
  {| liveTranscript := []; lastSequence := 0 |}.

(** [arr.sort((a, b) => a.sequenceNumber - b.sequenceNumber)].  The sort of an
    array is stable: of two entries the comparator does not separate, the one
    that came first stays first.  [place a sorted] puts [a], which came before
    every entry of [sorted], into its place. *)
Fixpoint place (a : Segment) (sorted : list Segment) : list Segment :=
  match sorted with
  | [] => [a]
  | b :: rest =>
      if sequenceNumber a - sequenceNumber b <=? 0 then a :: b :: rest
      else b :: place a rest
  end.

Definition sort (arr : list Segment) : list Segment :=
  foldr place [] arr.

(** [Math.max(x, ...xs)] of at least one number. *)
Definition Math_max (x : Z) (xs : list Z) : Z :=
  foldr Z.max x xs.

(** The effect on [transcriptData] (lines 781-801), on the entries
    [newSegments] made of the polled segments (lines 783-789 keep each
    segment's [id] and [sequenceNumber]).  An empty answer runs nothing.  The
    two setters are given functions of the previous state, so [st] is the
    state the updates queued before them have made. *)
Definition onTranscriptData (newSegments : list Segment) (st : PageState)
  : PageState :=
  match sequenceNumber <$> newSegments with
  | [] => st
  | x :: xs =>
      let prev := liveTranscript st in
      let existingIds : gset Z := list_to_set (id <$> prev) in
      let uniqueNew :=
        List.filter (fun s => negb (bool_decide (id s ∈ existingIds)))
          newSegments in
      let maxSeq := Math_max x xs in
      {| liveTranscript := sort (prev ++ uniqueNew)%list;
         lastSequence := Z.max (lastSequence st) maxSeq |}
  end.

(** The effect on [fullTranscript] (lines 812-825).  Its test reads
    [lastSequence] as the render it belongs to had it, [rendered]; its two
    setters are given values, not functions of the previous state, so they
    replace whatever the updates queued before them, [queued], have made. *)
Definition onFullTranscript (rendered : PageState) (segments : list Segment)
    (queued : PageState) : PageState :=
  match sequenceNumber <$> segments with
  | [] => queued
  | x :: xs =>
      if bool_decide (lastSequence rendered = 0)
      then {| liveTranscript := segments; lastSequence := Math_max x xs |}
      else queued
  end.

End LiveTranscript.

(** A run of one of the two effects: of the effect on [transcriptData] with
    the entries of a poll answer, or of the effect on [fullTranscript] with
    the entries of a load of the whole transcript. *)
Inductive Answer :=
| Polled (newSegments : list LiveTranscript.Segment)
| Loaded (segments : list LiveTranscript.Segment).

(** One effect run of a commit.  The effects that run after a render all read
    the state of that render, [rendered]; the state updates they ask for are
    queued and applied in the order they were asked for, [queued] being the
    state the earlier updates of the commit have made. *)
Definition run_effect (rendered queued : LiveTranscript.PageState) (a : Answer)
  : LiveTranscript.PageState :=
  match a with
  | Polled newSegments => LiveTranscript.onTranscriptData newSegments queued
  | Loaded segments => LiveTranscript.onFullTranscript rendered segments queued
  end.

(** A commit: the effect runs that follow one render, in the order they run
    (the effect on [transcriptData] is declared before the one on
    [fullTranscript]; either runs when its dependencies changed, with the
    answer the render holds), and the state the next render has. *)
Definition commit (rendered : LiveTranscript.PageState) (effects : list Answer)
  : LiveTranscript.PageState :=
  foldl (run_effect rendered) rendered effects.

(** The state of the page after a series of commits. *)
Definition on_commits (commits : list (list Answer)) : LiveTranscript.PageState :=
  foldl commit LiveTranscript.initial commits.

(** The entries are in the order of their sequence numbers. *)
Definition in_sequence (l : list LiveTranscript.Segment) : Prop :=
  StronglySorted
    (fun a b => LiveTranscript.sequenceNumber a <= LiveTranscript.sequenceNumber b) l.

(** The largest sequence number of a non-empty answer. *)
Definition max_sequence (l : list LiveTranscript.Segment) : Z :=
  match LiveTranscript.sequenceNumber <$> l with
  | [] => 0
  | x :: xs => LiveTranscript.Math_max x xs
  end.

(** The ids of the entries. *)
Definition ids (l : list LiveTranscript.Segment) : list Z :=
  LiveTranscript.id <$> l.

(** The entries an answer carries. *)
Definition answer_segments (a : Answer) : list LiveTranscript.Segment :=
  match a with
  | Polled newSegments => newSegments
  | Loaded segments => segments
  end.

(** No shown entry has a sequence number above [lastSequence]. *)
Definition bounded (st : LiveTranscript.PageState) : Prop :=
  Forall
    (fun s => LiveTranscript.sequenceNumber s <= LiveTranscript.lastSequence st)
    (LiveTranscript.liveTranscript st).

(** The entry with id [i] and sequence number [n]. *)
Definition entry (i n : Z) : LiveTranscript.Segment :=
  {| LiveTranscript.id := i; LiveTranscript.speaker := "Prime Minister";
     LiveTranscript.text := "..."; LiveTranscript.timestamp := 1000 * n;
     LiveTranscript.sequenceNumber := n |}.

(** A first commit in which a poll answer and the load of two entries come
    together, a poll that repeats the second entry and brings a third, and a
    late commit that brings the first two again, by poll and by load. *)
Definition overlapping_commits : list (list Answer) :=
  [[Polled [entry 13 3]; Loaded [entry 11 1; entry 12 2]];
   [Polled [entry 12 2; entry 13 3]];
   [Polled [entry 11 1; entry 12 2]; Loaded [entry 11 1; entry 12 2]]].

(** * Properties *)

(** ** Arrays: [filter], [findIndex] and indexing *)

Section Arrays.
Context {A : Type}.
Implicit Types (p : A -> bool) (l : list A) (x : A).

Lemma elem_of_filter p l x : x ∈ List.filter p l <-> x ∈ l /\ p x = true.
Proof. rewrite !list_elem_of_In. apply filter_In. Qed.

Lemma filter_sublist p l : sublist (List.filter p l) l.
Proof.
  induction l as [|a l IH]; simpl; [constructor|].
  destruct (p a); by constructor.
Qed.

(** A duplicate-free array has one sub-array with given members only. *)
Lemma sublist_filter_unique p l k :
  NoDup l -> sublist k l ->
  (forall x, x ∈ l -> (x ∈ k <-> p x = true)) ->
  k = List.filter p l.
Proof.
  intros Hnd Hsub. revert Hnd.
  induction Hsub as [|a k l Hsub IH|a k l Hsub IH]; intros Hnd Hmem.
  - done.
  - apply NoDup_cons in Hnd as [Hnotin Hnd]. simpl.
    assert (p a = true) as ->.
    { apply Hmem; apply elem_of_cons; by left. }
    f_equal. apply IH; [done|]. intros x Hx.
    rewrite <- Hmem by (apply elem_of_cons; by right).
    rewrite elem_of_cons. split; [by right|].
    intros [->|]; done.
  - apply NoDup_cons in Hnd as [Hnotin Hnd]. simpl.
    assert (p a = false) as ->.
    { destruct (p a) eqn:Hpa; [|done]. exfalso. apply Hnotin.
      eapply elem_of_sublist; [|exact Hsub].
      apply Hmem; [apply elem_of_cons; by left|done]. }
    apply IH; [done|]. intros x Hx. apply Hmem, elem_of_cons. by right.
Qed.

Lemma findIndex_from_none p l i :
  (forall x, x ∈ l -> p x = false) -> findIndex_from p l i = -1.
Proof.
  revert i. induction l as [|a l IH]; intros i Hall; simpl; [done|].
  rewrite (Hall a) by (apply elem_of_cons; by left).
  apply IH. intros x Hx. apply Hall, elem_of_cons. by right.
Qed.

Lemma findIndex_none p l :
  (forall x, x ∈ l -> p x = false) -> findIndex p l = -1.
Proof. apply findIndex_from_none. Qed.

Lemma findIndex_from_first p l i (n : nat) x :
  l !! n = Some x -> p x = true ->
  (forall (m : nat) y, (m < n)%nat -> l !! m = Some y -> p y = false) ->
  findIndex_from p l i = i + Z.of_nat n.
Proof.
  revert i n. induction l as [|a l IH]; intros i n Hn Hp Hbefore; [done|].
  destruct n as [|n]; simpl in *.
  - injection Hn as ->. rewrite Hp. lia.
  - rewrite (Hbefore 0%nat a) by (done || lia).
    rewrite (IH (i + 1) n); [lia|done..|].
    intros m y Hm Hy. apply (Hbefore (S m)); [lia|done].
Qed.

Lemma at_index_lookup l (n : nat) : at_index l (Z.of_nat n) = l !! n.
Proof.
  unfold at_index. destruct (Z.ltb_spec (Z.of_nat n) 0); [lia|].
  by rewrite Nat2Z.id.
Qed.

Lemma at_index_Some l i x :
  at_index l i = Some x -> 0 <= i < Z.of_nat (length l) /\ l !! Z.to_nat i = Some x.
Proof.
  unfold at_index. destruct (Z.ltb_spec i 0); [done|]. intros Hx.
  split; [|done]. apply lookup_lt_Some in Hx. lia.
Qed.

Lemma findIndex_from_ext p q l i :
  (forall x, p x = q x) -> findIndex_from p l i = findIndex_from q l i.
Proof.
  intros Hpq. revert i. induction l as [|a l IH]; intros i; simpl; [done|].
  by rewrite Hpq, IH.
Qed.

Lemma findIndex_ext p q l :
  (forall x, p x = q x) -> findIndex p l = findIndex q l.
Proof. apply findIndex_from_ext. Qed.

Lemma findIndex_from_range p l i :
  findIndex_from p l i = -1 \/
  i <= findIndex_from p l i < i + Z.of_nat (length l).
Proof.
  revert i. induction l as [|a l IH]; intros i; simpl; [by left|].
  destruct (p a); [right; lia|].
  destruct (IH (i + 1)) as [->|?]; [by left|right; lia].
Qed.

(** [findIndex] answers -1 or a valid index. *)
Lemma findIndex_range p l : -1 <= findIndex p l < Z.of_nat (length l).
Proof. unfold findIndex. destruct (findIndex_from_range p l 0); lia. Qed.

Lemma at_index_in_range l i :
  0 <= i < Z.of_nat (length l) -> exists x, at_index l i = Some x.
Proof.
  intros Hi. unfold at_index. destruct (Z.ltb_spec i 0); [lia|].
  apply lookup_lt_is_Some_2. lia.
Qed.
End Arrays.

(** Arrays of records identified by a key (the [role] of a speaker). *)
Section Keyed.
Context {A K : Type} `{EqDecision K} (key : A -> K).
Implicit Types (l : list A) (x : A).

Lemma findIndex_from_key l i (n : nat) x :
  NoDup (key <$> l) -> l !! n = Some x ->
  findIndex_from (fun s => bool_decide (key s = key x)) l i = i + Z.of_nat n.
Proof.
  intros Hnd Hn. apply (findIndex_from_first _ _ _ n x); [done|by apply bool_decide_eq_true|].
  intros m y Hm Hy. apply bool_decide_eq_false. intros Heq.
  assert (m = n) as ->; [|lia].
  eapply NoDup_lookup; [exact Hnd|..].
  - by rewrite list_lookup_fmap, Hy.
  - by rewrite list_lookup_fmap, Hn, Heq.
Qed.

Lemma at_index_findIndex_key l x :
  NoDup (key <$> l) -> x ∈ l ->
  at_index l (findIndex (fun s => bool_decide (key s = key x)) l) = Some x.
Proof.
  intros Hnd [n Hn]%list_elem_of_lookup. unfold findIndex.
  rewrite (findIndex_from_key l 0 n x) by done.
  rewrite Z.add_0_l, at_index_lookup. done.
Qed.

Lemma NoDup_key_filter p l :
  NoDup (key <$> l) -> NoDup (key <$> List.filter p l).
Proof.
  intros Hnd. eapply sublist_NoDup; [exact Hnd|apply fmap_sublist, filter_sublist].
Qed.

Lemma key_unique l x y :
  NoDup (key <$> l) -> x ∈ l -> y ∈ l -> key x = key y -> x = y.
Proof.
  intros Hnd [n Hn]%list_elem_of_lookup [m Hm]%list_elem_of_lookup Heq.
  assert (n = m) as ->; [|congruence].
  eapply NoDup_lookup; [exact Hnd|..].
  - by rewrite list_lookup_fmap, Hn.
  - by rewrite list_lookup_fmap, Hm, Heq.
Qed.

(** The last element is found at the last index. *)
Lemma findIndex_last l x :
  NoDup (key <$> l) -> last l = Some x ->
  findIndex (fun s => bool_decide (key s = key x)) l = Z.of_nat (length l) - 1.
Proof.
  intros Hnd Hlast. rewrite last_lookup in Hlast. unfold findIndex.
  rewrite (findIndex_from_key l 0 _ x Hnd Hlast).
  destruct l; simpl in *; [done|lia].
Qed.

(** In a filtered array, the element after [x] comes from a later index of
    the array it was filtered from. *)
Lemma filter_next_index p l (i : nat) x y :
  NoDup (key <$> l) -> l !! i = Some x -> p x = true ->
  at_index (List.filter p l)
    (findIndex (fun s => bool_decide (key s = key x)) (List.filter p l) + 1)
    = Some y ->
  exists j : nat, (i < j)%nat /\ l !! j = Some y /\ p y = true /\
    findIndex (fun s => bool_decide (key s = key y)) l = Z.of_nat j.
Proof.
  intros Hnd Hi Hpx.
  pose proof (NoDup_key_filter p l Hnd) as Hndf.
  set (pre := List.filter p (take i l)).
  set (post := List.filter p (drop (S i) l)).
  assert (List.filter p l = (pre ++ x :: post)%list) as Hsplit.
  { rewrite <- (take_drop_middle l i x Hi) at 1.
    rewrite List.filter_app. simpl. by rewrite Hpx. }
  rewrite Hsplit in Hndf |- *. unfold findIndex.
  rewrite (findIndex_from_key (pre ++ x :: post)%list 0 (length pre) x Hndf)
    by (by rewrite list_lookup_middle).
  replace (0 + Z.of_nat (length pre) + 1) with (Z.of_nat (S (length pre))) by lia.
  rewrite at_index_lookup.
  replace (S (length pre)) with (length pre + 1)%nat by lia.
  rewrite lookup_app_r, Nat.add_comm by lia.
  replace (1 + length pre - length pre)%nat with 1%nat by lia. simpl.
  intros Hy.
  assert (y ∈ post) as Hin by (eapply list_elem_of_lookup_2; exact Hy).
  apply elem_of_filter in Hin as [[j Hj]%list_elem_of_lookup Hpy].
  rewrite lookup_drop in Hj.
  exists (S i + j)%nat. repeat split; [lia|done..|].
  by rewrite (findIndex_from_key l 0 _ y Hnd Hj).
Qed.
End Keyed.

(** ** The format definition *)

Lemma fullSpeakingOrder_roles :
  role <$> fullSpeakingOrder =
  [prime_minister; leader_of_opposition; deputy_prime_minister;
   deputy_leader_of_opposition; government_whip; opposition_whip;
   opposition_reply; government_reply].
Proof. reflexivity. Qed.

Lemma fullSpeakingOrder_NoDup_roles : NoDup (role <$> fullSpeakingOrder).
Proof. rewrite fullSpeakingOrder_roles. compute_done. Qed.

Lemma fullSpeakingOrder_NoDup : NoDup fullSpeakingOrder.
Proof. eapply NoDup_fmap_1, fullSpeakingOrder_NoDup_roles. Qed.

(** Every speaker role has its own slot in the format. *)
Lemma role_string_slot (r : SpeakerRole.t) :
  exists speaker, speaker ∈ fullSpeakingOrder /\ role speaker = role_string r /\
    role speaker <> opposition_reply /\ role speaker <> government_reply.
Proof.
  assert (role_string r ∈ role <$> fullSpeakingOrder) as Hin.
  { rewrite fullSpeakingOrder_roles. destruct r; compute_done. }
  apply list_elem_of_fmap in Hin as (speaker & Heq & Hin).
  exists speaker. rewrite <- Heq. by destruct r.
Qed.

(** ** Active-order derivation *)

Lemma is_active_present S speaker :
  is_active S speaker = true <-> slot_present S speaker.
Proof.
  unfold is_active, slot_present, has.
  destruct (role speaker); simpl; apply bool_decide_eq_true.
Qed.

(** C1. For every set [S] of roles (so for every non-empty set of the six
    speaker roles), the active speaking order the server derives is the one
    sub-sequence of the eight-slot format, in the format's order, that holds a
    regular slot iff its role is in [S], the opposition reply iff
    leader_of_opposition is in [S] and the government reply iff prime_minister
    is in [S].  The derivation is a function of the format and of [S] alone. *)
Theorem active_order_derivation (S : gset Role) (order : list Speaker) :
  is_active_order S order <-> order = activeSpeakingOrder fullSpeakingOrder S.
Proof.
  unfold is_active_order, activeSpeakingOrder. split.
  - intros [Hsub Hmem].
    apply sublist_filter_unique; [apply fullSpeakingOrder_NoDup|done|].
    intros speaker Hin. rewrite is_active_present. by apply Hmem.
  - intros ->. split; [apply filter_sublist|].
    intros speaker Hin. rewrite elem_of_filter, is_active_present. tauto.
Qed.

(** ** The store *)

Lemma getDebateRoomById_run i st :
  getDebateRoomById i st = (Returned (room_of st i), st).
Proof. unfold room_of, getDebateRoomById. by destruct (connected st). Qed.

Lemma getRoomParticipants_run i st :
  getRoomParticipants i st = (Returned (roster st i), st).
Proof. unfold roster, getRoomParticipants. by destruct (connected st). Qed.

Lemma updateDebateRoom_run i u st :
  updateDebateRoom i u st = (Returned tt, set_room i u st).
Proof. unfold set_room, updateDebateRoom. by destruct (connected st). Qed.

Lemma room_of_Some st i room :
  room_of st i = Some room -> connected st = true /\ id room = i.
Proof.
  unfold room_of, getDebateRoomById. destruct (connected st); simpl; [|done].
  intros Hhead. split; [done|].
  assert (room ∈ List.filter (fun r => id r =? i) (debateRooms st)) as Hin.
  { destruct (List.filter _ _); simplify_eq/=. apply elem_of_cons. by left. }
  apply elem_of_filter in Hin as [_ Hid]. lia.
Qed.

Lemma room_of_set_room st i u j :
  room_of (set_room i u st) j =
  if decide (j = i) then apply_updates u <$> room_of st j else room_of st j.
Proof.
  unfold room_of, set_room, getDebateRoomById, updateDebateRoom.
  destruct st as [[] rooms parts]; simpl; [|by case_decide].
  induction rooms as [|r rooms IH]; simpl; [by case_decide|].
  destruct (Z.eqb_spec (id r) i) as [Hri|Hri]; simpl.
  - destruct (Z.eqb_spec (id r) j) as [Hrj|Hrj]; simpl; [|done].
    rewrite decide_True by congruence. done.
  - destruct (Z.eqb_spec (id r) j) as [Hrj|Hrj]; simpl; [|done].
    rewrite decide_False by congruence. done.
Qed.

Lemma room_of_set_room_eq st i u room :
  room_of st i = Some room ->
  room_of (set_room i u st) i = Some (apply_updates u room).
Proof. intros H. by rewrite room_of_set_room, decide_True, H. Qed.

Lemma roster_set_room st i u j : roster (set_room i u st) j = roster st j.
Proof.
  unfold roster, set_room, getRoomParticipants, updateDebateRoom.
  by destruct st as [[] rooms parts].
Qed.

(** ** The two procedures, run on a store *)

Lemma start_run c i now st :
  start c i now st =
  match room_of st i with
  | None => (Thrown {| code := NOT_FOUND; message := "Room not found" |}, st)
  | Some room =>
      if negb (creatorId room =? c) then
        (Thrown {| code := FORBIDDEN;
                   message := "Only the room creator can start the debate" |}, st)
      else if not_int (motionId room) then
        (Thrown {| code := BAD_REQUEST;
                   message := "A motion must be set before starting" |}, st)
      else if Z.of_nat (length (roster st i)) <? 1 then
        (Thrown {| code := BAD_REQUEST;
                   message := "At least one participant must join before starting" |}, st)
      else if negb (forallb (fun p => truthy (isReady p)) (roster st i)) then
        (Thrown {| code := BAD_REQUEST;
                   message := "All participants must be ready" |}, st)
      else
        (Returned {| success := true |},
         set_room i
           {| set_status := Some Status.in_progress;
              set_currentPhase := Some Phase.debate;
              set_currentSpeakerIndex :=
                Some (firstSpeakerLoop (present_roles st i) fullSpeakingOrder 0 0);
              set_startedAt := Some now;
              set_endedAt := None |} st)
  end.
Proof.
  unfold start, bind. rewrite getDebateRoomById_run.
  destruct (room_of st i) as [room|] eqn:Hroom; [|done].
  apply room_of_Some in Hroom as [_ ->].
  destruct (negb _); [done|]. destruct (not_int _); [done|].
  rewrite getRoomParticipants_run.
  destruct (_ <? 1); [done|]. destruct (negb _); [done|].
  by rewrite updateDebateRoom_run.
Qed.

Lemma advanceSpeaker_run i now st :
  advanceSpeaker i now st =
  match room_of st i with
  | None => (Thrown {| code := NOT_FOUND; message := "Room not found" |}, st)
  | Some room =>
      let active := activeSpeakingOrder fullSpeakingOrder (present_roles st i) in
      let currentSpeaker :=
        at_index fullSpeakingOrder (or_zero (currentSpeakerIndex room)) in
      let nextActiveIndex :=
        findIndex (fun s => bool_decide (Some (role s) = role <$> currentSpeaker))
                  active + 1 in
      if Z.of_nat (length active) <=? nextActiveIndex then
        (Returned {| completed := true; nextSpeakerIndex := None |},
         set_room i
           {| set_status := Some Status.completed;
              set_currentPhase := Some Phase.feedback;
              set_currentSpeakerIndex := None;
              set_startedAt := None;
              set_endedAt := Some now |} st)
      else
        match at_index active nextActiveIndex with
        | None =>
            (TypeError "Cannot read properties of undefined (reading 'role')", st)
        | Some nextSpeaker =>
            let nextFullIndex :=
              findIndex (fun s => bool_decide (role s = role nextSpeaker))
                        fullSpeakingOrder in
            (Returned {| completed := false; nextSpeakerIndex := Some nextFullIndex |},
             set_room i
               {| set_status := None;
                  set_currentPhase := None;
                  set_currentSpeakerIndex := Some nextFullIndex;
                  set_startedAt := None;
                  set_endedAt := None |} st)
        end
  end.
Proof.
  unfold advanceSpeaker, bind. rewrite getDebateRoomById_run.
  destruct (room_of st i) as [room|] eqn:Hroom; [|done].
  apply room_of_Some in Hroom as [_ ->].
  rewrite getRoomParticipants_run. cbv zeta. fold (present_roles st i).
  destruct (_ <=? _); [by rewrite updateDebateRoom_run|].
  destruct (at_index _ _); [|done].
  by rewrite updateDebateRoom_run.
Qed.

(** ** Starting a debate *)

Lemma is_active_role S a b : role a = role b -> is_active S a = is_active S b.
Proof. unfold is_active. by intros ->. Qed.

Lemma firstSpeakerLoop_cons S speaker rest i d :
  firstSpeakerLoop S (speaker :: rest) i d =
  if is_active S speaker then i else firstSpeakerLoop S rest (i + 1) d.
Proof.
  simpl. unfold is_active.
  destruct (bool_decide (role speaker = opposition_reply)); [done|].
  by destruct (bool_decide (role speaker = government_reply)).
Qed.

(** The loop stops at the first active slot: it computes the index of the
    head of the active order, and keeps its initial value when there is no
    active slot. *)
Lemma firstSpeakerLoop_filter S l i d :
  firstSpeakerLoop S l i d =
  match List.filter (is_active S) l with
  | [] => d
  | first :: _ => findIndex_from (fun s => bool_decide (role s = role first)) l i
  end.
Proof.
  revert i. induction l as [|a l IH]; intros i; [done|].
  rewrite firstSpeakerLoop_cons. simpl.
  destruct (is_active S a) eqn:Ha.
  - by rewrite bool_decide_eq_true_2.
  - rewrite IH. destruct (List.filter (is_active S) l) as [|first rest] eqn:Hf; [done|].
    rewrite bool_decide_eq_false_2; [done|].
    intros Heq. apply (is_active_role S) in Heq.
    assert (first ∈ List.filter (is_active S) l) as Hin
      by (rewrite Hf; apply elem_of_cons; by left).
    apply elem_of_filter in Hin as [_ Hin]. congruence.
Qed.

Lemma active_order_nonempty st i :
  roster st i <> [] ->
  activeSpeakingOrder fullSpeakingOrder (present_roles st i) <> [].
Proof.
  destruct (roster st i) as [|p ps] eqn:Hroster; [done|]. intros _.
  destruct (role_string_slot (speakerRole p)) as (speaker & Hin & Hrole & Hopp & Hgov).
  assert (speaker ∈ activeSpeakingOrder fullSpeakingOrder (present_roles st i)) as Hact.
  { apply elem_of_filter. split; [done|]. unfold is_active, has.
    rewrite !bool_decide_eq_false_2 by done. apply bool_decide_eq_true.
    unfold present_roles, roles_of. rewrite Hroster, Hrole.
    apply elem_of_list_to_set, elem_of_cons. by left. }
  intros Hnil. rewrite Hnil in Hact. by apply not_elem_of_nil in Hact.
Qed.

Lemma active_order_full S speaker :
  speaker ∈ activeSpeakingOrder fullSpeakingOrder S -> speaker ∈ fullSpeakingOrder.
Proof. intros Hin. by apply elem_of_filter in Hin as [? _]. Qed.

Lemma motion_attached_truthy room :
  motion_attached room -> not_int (motionId room) = false.
Proof. intros (m & -> & Hm). simpl. lia. Qed.

Lemma all_ready_forallb ps :
  Forall (fun p => isReady p = Some true) ps ->
  forallb (fun p => truthy (isReady p)) ps = true.
Proof. induction 1 as [|p ps Hp _ IH]; simpl; [done|]. by rewrite Hp. Qed.

(** When its five preconditions hold, [start] returns and rewrites the room. *)
Lemma start_success c i now st room :
  room_of st i = Some room ->
  creatorId room = c ->
  motion_attached room ->
  roster st i <> [] ->
  Forall (fun p => isReady p = Some true) (roster st i) ->
  start c i now st =
  (Returned {| success := true |},
   set_room i
     {| set_status := Some Status.in_progress;
        set_currentPhase := Some Phase.debate;
        set_currentSpeakerIndex :=
          Some (firstSpeakerLoop (present_roles st i) fullSpeakingOrder 0 0);
        set_startedAt := Some now;
        set_endedAt := None |} st).
Proof.
  intros Hroom Hc Hmotion Hjoined Hready. rewrite start_run, Hroom.
  rewrite Hc, Z.eqb_refl. simpl.
  rewrite (motion_attached_truthy _ Hmotion).
  destruct (Z.ltb_spec (Z.of_nat (length (roster st i))) 1) as [Hlen|_].
  { destruct (roster st i); simpl in *; [done|lia]. }
  by rewrite (all_ready_forallb _ Hready).
Qed.

(** C2. When the room exists, the caller is its creator, a motion is
    attached, at least one participant has joined and all joined participants
    are ready, [start] returns success and rewrites the room: the current
    speaker index becomes the index, in the full format, of the first slot of
    the active order of the roster (the first present role in canonical
    order), the status becomes in_progress, the phase debate, and the start
    timestamp is recorded. *)
Theorem start_effect c i now st room :
  room_of st i = Some room ->
  creatorId room = c ->
  motion_attached room ->
  roster st i <> [] ->
  Forall (fun p => isReady p = Some true) (roster st i) ->
  exists first rest n,
    activeSpeakingOrder fullSpeakingOrder (present_roles st i) = first :: rest /\
    at_index fullSpeakingOrder n = Some first /\
    fst (start c i now st) = Returned {| success := true |} /\
    room_of (snd (start c i now st)) i =
      Some {| id := id room; roomCode := roomCode room;
              creatorId := creatorId room; motionId := motionId room;
              status := Status.in_progress;
              currentSpeakerIndex := Some n;
              currentPhase := Phase.debate;
              startedAt := Some now;
              endedAt := endedAt room |}.
Proof.
  intros Hroom Hc Hmotion Hjoined Hready.
  rewrite (start_success c i now st room) by done. cbn [fst snd].
  pose proof (active_order_nonempty st i Hjoined) as Hne.
  destruct (activeSpeakingOrder fullSpeakingOrder (present_roles st i))
    as [|first rest] eqn:Hact; [done|].
  exists first, rest,
    (findIndex (fun s => bool_decide (role s = role first)) fullSpeakingOrder).
  split; [done|]. split.
  { apply (at_index_findIndex_key role); [apply fullSpeakingOrder_NoDup_roles|].
    apply (active_order_full (present_roles st i)). rewrite Hact.
    apply elem_of_cons. by left. }
  split; [done|].
  rewrite (room_of_set_room_eq _ _ _ room) by done.
  rewrite firstSpeakerLoop_filter. unfold activeSpeakingOrder in Hact.
  by rewrite Hact.
Qed.

Lemma start_effect_witness :
  exists first rest n,
    activeSpeakingOrder fullSpeakingOrder (present_roles two_speaker_store 1)
      = first :: rest /\
    at_index fullSpeakingOrder n = Some first /\
    fst (start 101 1 500 two_speaker_store) = Returned {| success := true |} /\
    room_of (snd (start 101 1 500 two_speaker_store)) 1 =
      Some {| id := 1; roomCode := "ABCDEF"; creatorId := 101;
              motionId := Some 5; status := Status.in_progress;
              currentSpeakerIndex := Some n; currentPhase := Phase.debate;
              startedAt := Some 500; endedAt := None |}.
Proof.
  apply (start_effect 101 1 500 two_speaker_store (created_room 1 101 5)).
  - reflexivity.
  - reflexivity.
  - exists 5. split; [reflexivity|lia].
  - vm_compute. discriminate.
  - vm_compute. repeat constructor.
Defined.


(** ** Starting with a partial roster *)

Lemma has_true S r : r ∈ S -> has S r = true.
Proof. apply bool_decide_eq_true_2. Qed.

Lemma has_false S r : r ∉ S -> has S r = false.
Proof. apply bool_decide_eq_false_2. Qed.

Lemma start_index c i now st room :
  room_of st i = Some room ->
  creatorId room = c ->
  motion_attached room ->
  roster st i <> [] ->
  Forall (fun p => isReady p = Some true) (roster st i) ->
  started_index c i now st =
    Some (firstSpeakerLoop (present_roles st i) fullSpeakingOrder 0 0).
Proof.
  intros Hroom Hc Hmotion Hjoined Hready. unfold started_index.
  rewrite (start_success c i now st room) by done. cbn [snd].
  by rewrite (room_of_set_room_eq _ _ _ room).
Qed.

Lemma present_roles_joined st i r :
  r ∈ present_roles st i -> roster st i <> [].
Proof.
  unfold present_roles, roles_of. intros Hin Hnil. rewrite Hnil in Hin.
  by apply not_elem_of_empty in Hin.
Qed.

(** C5, as the code has it.  With the prime minister absent and the deputy
    prime minister present, [start] sets the current speaker index to 1, the
    index of the leader of the opposition, when the leader of the opposition
    is present (so in the roster without prime minister and government whip
    but with the deputy prime minister and the three opposition speakers),
    and to 2, the index of the deputy prime minister, only when the leader of
    the opposition is absent too. *)
Theorem start_partial_roster c i now st room :
  room_of st i = Some room ->
  creatorId room = c ->
  motion_attached room ->
  Forall (fun p => isReady p = Some true) (roster st i) ->
  prime_minister ∉ present_roles st i ->
  deputy_prime_minister ∈ present_roles st i ->
  started_index c i now st =
    Some (if bool_decide (leader_of_opposition ∈ present_roles st i) then 1 else 2).
Proof.
  intros Hroom Hc Hmotion Hready Hpm%has_false Hdpm.
  rewrite (start_index c i now st room)
    by eauto using present_roles_joined.
  apply has_true in Hdpm. fold (has (present_roles st i) leader_of_opposition).
  cbv -[has present_roles]. rewrite Hpm, Hdpm.
  by destruct (has (present_roles st i) leader_of_opposition).
Qed.

Lemma start_partial_roster_witness :
  started_index 101 1 500 partial_roster_store = Some 1.
Proof.
  change (Some 1) with
    (Some (if bool_decide (leader_of_opposition ∈ present_roles partial_roster_store 1)
           then 1 else 2)).
  apply (start_partial_roster 101 1 500 partial_roster_store (created_room 1 101 5)).
  - reflexivity.
  - reflexivity.
  - exists 5. split; [reflexivity|lia].
  - vm_compute. repeat constructor.
  - vm_compute. discriminate.
  - vm_compute. reflexivity.
Defined.

(** C5, as stated, fails: in the roster it describes the leader of the
    opposition speaks before the deputy prime minister, and [start] leaves
    index 1, not 2. *)
Lemma partial_roster_index_not_dpm :
  (prime_minister ∉ present_roles partial_roster_store 1) /\
  (government_whip ∉ present_roles partial_roster_store 1) /\
  (deputy_prime_minister ∈ present_roles partial_roster_store 1) /\
  (leader_of_opposition ∈ present_roles partial_roster_store 1) /\
  (deputy_leader_of_opposition ∈ present_roles partial_roster_store 1) /\
  (opposition_whip ∈ present_roles partial_roster_store 1) /\
  fst (start 101 1 500 partial_roster_store) = Returned {| success := true |} /\
  started_index 101 1 500 partial_roster_store <> Some 2.
Proof. repeat split; compute_done. Qed.

(** ** The readiness precondition *)

Lemma unready_forallb ps p :
  p ∈ ps -> isReady p = Some false ->
  forallb (fun p => truthy (isReady p)) ps = false.
Proof.
  intros Hin Hp. destruct (forallb _ ps) eqn:Hall; [|done].
  rewrite forallb_forall in Hall.
  apply list_elem_of_In, Hall in Hin. by rewrite Hp in Hin.
Qed.

(** C8, as the code has it.  In an existing room with a motion, a joined
    participant who is not ready makes [start] fail and leave the store as it
    is, whoever calls; when the caller is the room's creator the failure is
    the precondition failure that names readiness, and for any other caller
    it is the Forbidden failure of the creator check, which comes first. *)
Theorem start_rejects_unready c i now st room p :
  room_of st i = Some room ->
  motion_attached room ->
  p ∈ roster st i ->
  isReady p = Some false ->
  exists e,
    start c i now st = (Thrown e, st) /\
    (creatorId room = c ->
     kind_of (code e) = PreconditionFailed /\
     message e = "All participants must be ready") /\
    (creatorId room <> c -> kind_of (code e) = Forbidden).
Proof.
  intros Hroom Hmotion Hin Hp. rewrite start_run, Hroom.
  destruct (Z.eqb_spec (creatorId room) c) as [Hc|Hc]; simpl.
  2: { eexists. split; [done|]. split; [done|]. intros _. done. }
  rewrite (motion_attached_truthy _ Hmotion).
  destruct (Z.ltb_spec (Z.of_nat (length (roster st i))) 1) as [Hlen|_].
  { destruct (roster st i); [by apply not_elem_of_nil in Hin|simpl in Hlen; lia]. }
  rewrite (unready_forallb _ p) by done. simpl.
  eexists. split; [done|]. split; [done|]. intros Hne. done.
Qed.

Lemma start_rejects_unready_witness :
  exists e,
    start 101 1 500 not_ready_store = (Thrown e, not_ready_store) /\
    kind_of (code e) = PreconditionFailed /\
    message e = "All participants must be ready".
Proof.
  destruct (start_rejects_unready 101 1 500 not_ready_store (created_room 1 101 5)
              (joined 2 opposition SpeakerRole.leader_of_opposition false))
    as (e & Hrun & Hkind & _).
  - reflexivity.
  - exists 5. split; [reflexivity|lia].
  - vm_compute. apply list_elem_of_further, list_elem_of_here.
  - reflexivity.
  - exists e. split; [exact Hrun|]. apply Hkind. reflexivity.
Defined.

(** C8, as stated, fails for a caller who is not the creator: user 102 gets
    FORBIDDEN, which is not a precondition failure, although a participant is
    not ready. *)
Lemma unready_start_forbidden : ~ unready_start_fails 102 1 500 not_ready_store.
Proof.
  intros Hclaim.
  destruct (Hclaim (created_room 1 101 5)
              (joined 2 opposition SpeakerRole.leader_of_opposition false))
    as (e & Hthrown & Hkind & _).
  - reflexivity.
  - exists 5. split; [reflexivity|lia].
  - vm_compute. apply list_elem_of_further, list_elem_of_here.
  - reflexivity.
  - vm_compute in Hthrown. injection Hthrown as <-. discriminate Hkind.
Qed.


(** ** Advancing the speaker *)

Lemma current_test_Some x s :
  bool_decide (Some (role s) = role <$> Some x) = bool_decide (role s = role x).
Proof. apply bool_decide_ext. split; [by intros [= ->]|by intros ->]. Qed.

(** The two ways a call on an existing room ends: the debate is completed, or
    the index of the next active speaker is stored.  No [TypeError] escapes. *)
Lemma advanceSpeaker_cases i now st room :
  room_of st i = Some room ->
  let active := activeSpeakingOrder fullSpeakingOrder (present_roles st i) in
  let nextActiveIndex :=
    findIndex (fun s => bool_decide (Some (role s) = role <$> current_speaker room))
              active + 1 in
  (Z.of_nat (length active) <= nextActiveIndex /\
   advanceSpeaker i now st =
     (Returned {| completed := true; nextSpeakerIndex := None |},
      set_room i
        {| set_status := Some Status.completed;
           set_currentPhase := Some Phase.feedback;
           set_currentSpeakerIndex := None;
           set_startedAt := None;
           set_endedAt := Some now |} st)) \/
  (exists nextSpeaker,
     nextActiveIndex < Z.of_nat (length active) /\
     at_index active nextActiveIndex = Some nextSpeaker /\
     advanceSpeaker i now st =
       (Returned {| completed := false;
                    nextSpeakerIndex :=
                      Some (findIndex (fun s => bool_decide (role s = role nextSpeaker))
                                      fullSpeakingOrder) |},
        set_room i
          {| set_status := None;
             set_currentPhase := None;
             set_currentSpeakerIndex :=
               Some (findIndex (fun s => bool_decide (role s = role nextSpeaker))
                               fullSpeakingOrder);
             set_startedAt := None;
             set_endedAt := None |} st)).
Proof.
  intros Hroom active nextActiveIndex. rewrite advanceSpeaker_run, Hroom.
  cbv zeta. fold (current_speaker room). fold active. fold nextActiveIndex.
  destruct (Z.leb_spec (Z.of_nat (length active)) nextActiveIndex) as [Hle|Hlt].
  { left. done. }
  right.
  destruct (at_index_in_range active nextActiveIndex) as [nextSpeaker Hnext].
  { pose proof (findIndex_range
      (fun s => bool_decide (Some (role s) = role <$> current_speaker room)) active).
    subst nextActiveIndex. lia. }
  exists nextSpeaker. rewrite Hnext. done.
Qed.

Lemma apply_completed room now :
  apply_updates
    {| set_status := Some Status.completed;
       set_currentPhase := Some Phase.feedback;
       set_currentSpeakerIndex := None;
       set_startedAt := None;
       set_endedAt := Some now |} room =
  {| id := id room; roomCode := roomCode room; creatorId := creatorId room;
     motionId := motionId room; status := Status.completed;
     currentSpeakerIndex := currentSpeakerIndex room;
     currentPhase := Phase.feedback; startedAt := startedAt room;
     endedAt := Some now |}.
Proof. done. Qed.

Lemma apply_next room n :
  apply_updates
    {| set_status := None;
       set_currentPhase := None;
       set_currentSpeakerIndex := Some n;
       set_startedAt := None;
       set_endedAt := None |} room =
  {| id := id room; roomCode := roomCode room; creatorId := creatorId room;
     motionId := motionId room; status := status room;
     currentSpeakerIndex := Some n;
     currentPhase := currentPhase room; startedAt := startedAt room;
     endedAt := endedAt room |}.
Proof. done. Qed.

(** From the last slot of the active order a call completes the debate. *)
Lemma advance_last_slot i now st room speaker :
  room_of st i = Some room ->
  current_speaker room = Some speaker ->
  last (activeSpeakingOrder fullSpeakingOrder (present_roles st i)) = Some speaker ->
  advanceSpeaker i now st =
    (Returned {| completed := true; nextSpeakerIndex := None |},
     set_room i
       {| set_status := Some Status.completed;
          set_currentPhase := Some Phase.feedback;
          set_currentSpeakerIndex := None;
          set_startedAt := None;
          set_endedAt := Some now |} st).
Proof.
  intros Hroom Hcur Hlast.
  destruct (advanceSpeaker_cases i now st room Hroom) as [[_ ->]|(y & Hlt & _)];
    [done|].
  exfalso. revert Hlt. rewrite Hcur.
  rewrite (findIndex_ext _ _ _ (current_test_Some speaker)).
  rewrite (findIndex_last role _ speaker); [lia| |done].
  apply NoDup_key_filter, fullSpeakingOrder_NoDup_roles.
Qed.

(** C6. Whenever the current slot is the last slot of the active order,
    [advanceSpeaker] returns [{completed: true, nextSpeakerIndex: null}] and
    stores status completed, phase feedback and the end timestamp. *)
Theorem terminal_advance i now st room speaker :
  room_of st i = Some room ->
  current_speaker room = Some speaker ->
  last (activeSpeakingOrder fullSpeakingOrder (present_roles st i)) = Some speaker ->
  fst (advanceSpeaker i now st) =
    Returned {| completed := true; nextSpeakerIndex := None |} /\
  room_of (snd (advanceSpeaker i now st)) i =
    Some {| id := id room; roomCode := roomCode room;
            creatorId := creatorId room; motionId := motionId room;
            status := Status.completed;
            currentSpeakerIndex := currentSpeakerIndex room;
            currentPhase := Phase.feedback;
            startedAt := startedAt room;
            endedAt := Some now |}.
Proof.
  intros Hroom Hcur Hlast.
  rewrite (advance_last_slot i now st room speaker) by done. cbn [fst snd].
  split; [done|]. by rewrite (room_of_set_room_eq _ _ _ room).
Qed.

Lemma terminal_advance_witness :
  fst (advanceSpeaker 1 1004 last_slot_store) =
    Returned {| completed := true; nextSpeakerIndex := None |} /\
  room_of (snd (advanceSpeaker 1 1004 last_slot_store)) 1 =
    Some {| id := 1; roomCode := "ABCDEF"; creatorId := 101;
            motionId := Some 5; status := Status.completed;
            currentSpeakerIndex := Some 7; currentPhase := Phase.feedback;
            startedAt := Some 500; endedAt := Some 1004 |}.
Proof.
  apply (terminal_advance 1 1004 last_slot_store
           {| id := 1; roomCode := "ABCDEF"; creatorId := 101;
              motionId := Some 5; status := Status.in_progress;
              currentSpeakerIndex := Some 7; currentPhase := Phase.debate;
              startedAt := Some 500; endedAt := None |}
           {| role := government_reply; team := government;
              label := "Government Reply"; time := 240 |}).
  - reflexivity.
  - reflexivity.
  - reflexivity.
Defined.

(** C9. On an existing room [advanceSpeaker] always returns, whatever index
    is stored (null, 0 or outside the format): no lookup goes out of bounds.
    With an empty active order it reports completion.  When the slot the
    stored index points at (index 0 for null) has no role of the active order,
    or there is no such slot, and the active order is not empty, it reports
    [completed = false] with the full-format index of the first active slot
    and stores that index. *)
Theorem advance_total_stale_fallback i now st room :
  room_of st i = Some room ->
  let active := activeSpeakingOrder fullSpeakingOrder (present_roles st i) in
  (exists r, fst (advanceSpeaker i now st) = Returned r) /\
  (active = [] ->
   fst (advanceSpeaker i now st) =
     Returned {| completed := true; nextSpeakerIndex := None |}) /\
  (forall first rest,
     active = first :: rest ->
     (forall s, s ∈ active -> Some (role s) <> role <$> current_speaker room) ->
     exists n,
       at_index fullSpeakingOrder n = Some first /\
       fst (advanceSpeaker i now st) =
         Returned {| completed := false; nextSpeakerIndex := Some n |} /\
       room_of (snd (advanceSpeaker i now st)) i =
         Some {| id := id room; roomCode := roomCode room;
                 creatorId := creatorId room; motionId := motionId room;
                 status := status room;
                 currentSpeakerIndex := Some n;
                 currentPhase := currentPhase room;
                 startedAt := startedAt room;
                 endedAt := endedAt room |}).
Proof.
  intros Hroom active.
  destruct (advanceSpeaker_cases i now st room Hroom)
    as [[Hle Hrun]|(y & Hlt & Hy & Hrun)]; fold active in Hle || fold active in Hlt, Hy;
    rewrite Hrun; cbn [fst snd].
  - split; [by eexists|]. split; [done|].
    intros first rest Hact Hstale. exfalso.
    rewrite findIndex_none in Hle
      by (intros s Hs; apply bool_decide_eq_false_2; by apply Hstale).
    rewrite Hact in Hle. simpl in Hle. lia.
  - split; [by eexists|]. split.
    { intros Hnil. rewrite Hnil in Hlt. unfold findIndex in Hlt. simpl in Hlt. lia. }
    intros first rest Hact Hstale.
    rewrite findIndex_none in Hy
      by (intros s Hs; apply bool_decide_eq_false_2; by apply Hstale).
    rewrite Hact in Hy. injection Hy as <-.
    eexists. split; [|split; [done|]].
    + apply (at_index_findIndex_key role); [apply fullSpeakingOrder_NoDup_roles|].
      apply (active_order_full (present_roles st i)). fold active. rewrite Hact.
      apply elem_of_cons. by left.
    + by rewrite (room_of_set_room_eq _ _ _ room).
Qed.

Lemma advance_total_stale_fallback_witness :
  exists n,
    at_index fullSpeakingOrder n =
      Some {| role := deputy_prime_minister; team := government;
              label := "Deputy Prime Minister"; time := 420 |} /\
    fst (advanceSpeaker 1 1000 stale_index_store) =
      Returned {| completed := false; nextSpeakerIndex := Some n |} /\
    room_of (snd (advanceSpeaker 1 1000 stale_index_store)) 1 =
      Some {| id := 1; roomCode := "ABCDEF"; creatorId := 101;
              motionId := Some 5; status := Status.in_progress;
              currentSpeakerIndex := Some n; currentPhase := Phase.debate;
              startedAt := Some 500; endedAt := None |}.
Proof.
  destruct (advance_total_stale_fallback 1 1000 stale_index_store
              {| id := 1; roomCode := "ABCDEF"; creatorId := 101;
                 motionId := Some 5; status := Status.in_progress;
                 currentSpeakerIndex := Some 12; currentPhase := Phase.debate;
                 startedAt := Some 500; endedAt := None |})
    as (_ & _ & Hstale); [reflexivity|].
  apply (Hstale _
    [{| role := opposition_whip; team := opposition;
        label := "Opposition Whip"; time := 420 |}]).
  - reflexivity.
  - intros s _ Hs. vm_compute in Hs. discriminate Hs.
Defined.

(** ** Walking the format upward *)

Lemma present_roles_set_room st i u j :
  present_roles (set_room i u st) j = present_roles st j.
Proof. unfold present_roles. by rewrite roster_set_room. Qed.

Lemma current_speaker_index room speaker :
  current_speaker room = Some speaker ->
  0 <= or_zero (currentSpeakerIndex room) /\
  fullSpeakingOrder !! Z.to_nat (or_zero (currentSpeakerIndex room)) = Some speaker.
Proof. intros [[? _] ?]%at_index_Some. done. Qed.

Lemma or_zero_Some n : or_zero (Some n) = n.
Proof. simpl. destruct (Z.eqb_spec n 0); congruence. Qed.

(** A role of the active order names one slot of it. *)
Lemma role_in_active S speaker :
  speaker ∈ fullSpeakingOrder ->
  role speaker ∈ role <$> activeSpeakingOrder fullSpeakingOrder S ->
  speaker ∈ activeSpeakingOrder fullSpeakingOrder S.
Proof.
  intros Hfull (s & Hrole & Hs)%list_elem_of_fmap.
  assert (s = speaker) as <-; [|done].
  apply (key_unique role fullSpeakingOrder);
    [apply fullSpeakingOrder_NoDup_roles|by eapply active_order_full|done..].
Qed.

(** One call from a slot of the active order: the debate is completed, or the
    call moves to a later slot of the format that is again in the active
    order. *)
Lemma advance_step_in_order i now st room speaker :
  room_of st i = Some room ->
  current_speaker room = Some speaker ->
  speaker ∈ activeSpeakingOrder fullSpeakingOrder (present_roles st i) ->
  advanceSpeaker i now st =
    (Returned {| completed := true; nextSpeakerIndex := None |},
     set_room i
       {| set_status := Some Status.completed;
          set_currentPhase := Some Phase.feedback;
          set_currentSpeakerIndex := None;
          set_startedAt := None;
          set_endedAt := Some now |} st) \/
  exists n next,
    or_zero (currentSpeakerIndex room) < n /\
    at_index fullSpeakingOrder n = Some next /\
    next ∈ activeSpeakingOrder fullSpeakingOrder (present_roles st i) /\
    advanceSpeaker i now st =
      (Returned {| completed := false; nextSpeakerIndex := Some n |},
       set_room i
         {| set_status := None;
            set_currentPhase := None;
            set_currentSpeakerIndex := Some n;
            set_startedAt := None;
            set_endedAt := None |} st).
Proof.
  intros Hroom Hcur Hactive.
  destruct (advanceSpeaker_cases i now st room Hroom)
    as [[_ Hrun]|(next & _ & Hnext & Hrun)]; [by left|right].
  rewrite Hcur in Hnext.
  rewrite (findIndex_ext _ _ _ (current_test_Some speaker)) in Hnext.
  apply current_speaker_index in Hcur as [Hpos Hlook].
  apply elem_of_filter in Hactive as [_ Hactive].
  destruct (filter_next_index role (is_active (present_roles st i))
              fullSpeakingOrder _ speaker next
              fullSpeakingOrder_NoDup_roles Hlook Hactive Hnext)
    as (j & Hj & Hlookj & Hpj & Hfind).
  exists (Z.of_nat j), next. rewrite <- Hfind at 3 4.
  split; [lia|]. split; [by rewrite at_index_lookup|]. split; [|done].
  apply elem_of_filter. split; [|done]. by eapply list_elem_of_lookup_2.
Qed.

Lemma returned_indices_cons r os :
  returned_indices (Returned r :: os) =
  match nextSpeakerIndex r with
  | Some n => n :: returned_indices os
  | None => returned_indices os
  end.
Proof. done. Qed.

Lemma advance_walk i nows : forall st room speaker,
  room_of st i = Some room ->
  current_speaker room = Some speaker ->
  speaker ∈ activeSpeakingOrder fullSpeakingOrder (present_roles st i) ->
  StronglySorted Z.lt
    (or_zero (currentSpeakerIndex room)
       :: returned_indices (fst (advance_calls i nows st))).
Proof.
  induction nows as [|now nows IH]; intros st room speaker Hroom Hcur Hactive.
  { simpl. repeat constructor. }
  simpl.
  destruct (advance_step_in_order i now st room speaker Hroom Hcur Hactive)
    as [Hrun|(n & next & Hlt & Hn & Hnext & Hrun)]; rewrite Hrun.
  - match goal with |- context [advance_calls i nows ?st'] =>
      specialize (IH st' _ speaker (room_of_set_room_eq st i _ room Hroom));
      destruct (advance_calls i nows st') as [os st'']
    end.
    cbn [fst]. rewrite returned_indices_cons. cbn [nextSpeakerIndex].
    apply IH; [done|by rewrite present_roles_set_room].
  - match goal with |- context [advance_calls i nows ?st'] =>
      specialize (IH st' _ next (room_of_set_room_eq st i _ room Hroom));
      destruct (advance_calls i nows st') as [os st'']
    end.
    cbn [fst] in *. rewrite returned_indices_cons. cbn [nextSpeakerIndex].
    rewrite apply_next in IH. cbn [currentSpeakerIndex] in IH.
    rewrite or_zero_Some in IH.
    assert (StronglySorted Z.lt (n :: returned_indices os)) as Hsorted.
    { apply IH; [|by rewrite present_roles_set_room].
      unfold current_speaker. cbn [currentSpeakerIndex]. by rewrite or_zero_Some. }
    constructor; [done|]. constructor; [done|].
    apply StronglySorted_inv in Hsorted as [_ Hall].
    eapply Forall_impl; [exact Hall|]. intros m Hm. lia.
Qed.

(** C10. With a fixed roster and a room whose index points at a slot whose
    role occurs in the active order, a call of [advanceSpeaker] completes the
    debate or returns, and stores, an index strictly greater than the stored
    one; over any series of calls the returned indices, preceded by the index
    the first call found, increase strictly. *)
Theorem advance_index_increases i now st room speaker :
  room_of st i = Some room ->
  current_speaker room = Some speaker ->
  role speaker ∈ role <$> activeSpeakingOrder fullSpeakingOrder (present_roles st i) ->
  (fst (advanceSpeaker i now st) =
     Returned {| completed := true; nextSpeakerIndex := None |} \/
   exists n,
     fst (advanceSpeaker i now st) =
       Returned {| completed := false; nextSpeakerIndex := Some n |} /\
     or_zero (currentSpeakerIndex room) < n /\
     (room_of (snd (advanceSpeaker i now st)) i ≫= currentSpeakerIndex) = Some n) /\
  (forall nows,
     StronglySorted Z.lt
       (or_zero (currentSpeakerIndex room)
          :: returned_indices (fst (advance_calls i nows st)))).
Proof.
  intros Hroom Hcur Hrole.
  assert (speaker ∈ activeSpeakingOrder fullSpeakingOrder (present_roles st i))
    as Hactive.
  { apply role_in_active; [|done].
    apply current_speaker_index in Hcur as [_ Hlook].
    by eapply list_elem_of_lookup_2. }
  split; [|intros nows; by eapply advance_walk].
  destruct (advance_step_in_order i now st room speaker Hroom Hcur Hactive)
    as [Hrun|(n & next & Hlt & _ & _ & Hrun)]; rewrite Hrun; cbn [fst snd];
    [by left|right].
  exists n. split; [done|]. split; [done|].
  by rewrite (room_of_set_room_eq _ _ _ room).
Qed.

Lemma advance_index_increases_witness :
  (fst (advanceSpeaker 1 1001 (snd (start 101 1 500 partial_roster_store))) =
     Returned {| completed := true; nextSpeakerIndex := None |} \/
   exists n,
     fst (advanceSpeaker 1 1001 (snd (start 101 1 500 partial_roster_store))) =
       Returned {| completed := false; nextSpeakerIndex := Some n |} /\
     or_zero (Some 1) < n /\
     (room_of (snd (advanceSpeaker 1 1001
                      (snd (start 101 1 500 partial_roster_store)))) 1
        ≫= currentSpeakerIndex) = Some n) /\
  (forall nows,
     StronglySorted Z.lt
       (or_zero (Some 1)
          :: returned_indices
               (fst (advance_calls 1 nows
                       (snd (start 101 1 500 partial_roster_store)))))).
Proof.
  apply (advance_index_increases 1 1001
           (snd (start 101 1 500 partial_roster_store))
           {| id := 1; roomCode := "ABCDEF"; creatorId := 101;
              motionId := Some 5; status := Status.in_progress;
              currentSpeakerIndex := Some 1; currentPhase := Phase.debate;
              startedAt := Some 500; endedAt := None |}
           {| role := leader_of_opposition; team := opposition;
              label := "Leader of Opposition"; time := 420 |}).
  - reflexivity.
  - reflexivity.
  - vm_compute. apply list_elem_of_here.
Defined.

(** ** What a call decides *)

Lemma advanceSpeaker_next i now st room :
  room_of st i = Some room ->
  advanceSpeaker i now st =
  match next_index (present_roles st i) (currentSpeakerIndex room) with
  | None =>
      (Returned {| completed := true; nextSpeakerIndex := None |},
       set_room i
         {| set_status := Some Status.completed;
            set_currentPhase := Some Phase.feedback;
            set_currentSpeakerIndex := None;
            set_startedAt := None;
            set_endedAt := Some now |} st)
  | Some n =>
      (Returned {| completed := false; nextSpeakerIndex := Some n |},
       set_room i
         {| set_status := None;
            set_currentPhase := None;
            set_currentSpeakerIndex := Some n;
            set_startedAt := None;
            set_endedAt := None |} st)
  end.
Proof.
  intros Hroom. unfold next_index. cbv zeta.
  fold (current_speaker room).
  destruct (advanceSpeaker_cases i now st room Hroom)
    as [[Hle ->]|(y & Hlt & Hy & ->)].
  - destruct (Z.leb_spec (Z.of_nat (length
      (activeSpeakingOrder fullSpeakingOrder (present_roles st i))))
      (findIndex (fun s => bool_decide (Some (role s) = role <$> current_speaker room))
         (activeSpeakingOrder fullSpeakingOrder (present_roles st i)) + 1)); [done|lia].
  - destruct (Z.leb_spec (Z.of_nat (length
      (activeSpeakingOrder fullSpeakingOrder (present_roles st i))))
      (findIndex (fun s => bool_decide (Some (role s) = role <$> current_speaker room))
         (activeSpeakingOrder fullSpeakingOrder (present_roles st i)) + 1)); [lia|].
    by rewrite Hy.
Qed.

(** ** The two-speaker debate *)

Lemma advance_calls_cons i now nows st :
  advance_calls i (now :: nows) st =
  (fst (advanceSpeaker i now st)
     :: fst (advance_calls i nows (snd (advanceSpeaker i now st))),
   snd (advance_calls i nows (snd (advanceSpeaker i now st)))).
Proof.
  cbn [advance_calls]. destruct (advanceSpeaker i now st) as [o st'].
  cbn [fst snd]. by destruct (advance_calls i nows st') as [os st''].
Qed.

(** C4, as the code has it.  With only prime minister and leader of the
    opposition joined, the active order is prime_minister,
    leader_of_opposition, opposition_reply, government_reply; [start] puts
    the room on the first of these four slots, the next three calls of
    [advanceSpeaker] move to full-format indices 1, 6 and 7 with
    [completed = false], and the fourth call returns [completed = true]. *)
Theorem two_speaker_run c i st room t0 t1 t2 t3 t4 :
  room_of st i = Some room ->
  creatorId room = c ->
  motion_attached room ->
  Forall (fun p => isReady p = Some true) (roster st i) ->
  present_roles st i = {[ prime_minister; leader_of_opposition ]} ->
  role <$> activeSpeakingOrder fullSpeakingOrder (present_roles st i) =
    [prime_minister; leader_of_opposition; opposition_reply; government_reply] /\
  fst (start c i t0 st) = Returned {| success := true |} /\
  fst (advance_calls i [t1; t2; t3; t4] (snd (start c i t0 st))) =
    [Returned {| completed := false; nextSpeakerIndex := Some 1 |};
     Returned {| completed := false; nextSpeakerIndex := Some 6 |};
     Returned {| completed := false; nextSpeakerIndex := Some 7 |};
     Returned {| completed := true; nextSpeakerIndex := None |}] /\
  completes_exactly_on 4
    (fst (advance_calls i [t1; t2; t3; t4] (snd (start c i t0 st)))).
Proof.
  intros Hroom Hc Hmotion Hready Hroles.
  assert (roster st i <> []) as Hjoined.
  { intros Hnil. unfold present_roles in Hroles. rewrite Hnil in Hroles.
    assert (prime_minister ∈ roles_of []) as Hin by (rewrite Hroles; set_solver).
    by apply not_elem_of_empty in Hin. }
  split; [by rewrite Hroles|].
  rewrite (start_success c i t0 st room) by done. cbn [fst snd].
  split; [done|]. rewrite Hroles.
  assert (forall os, os =
    [Returned {| completed := false; nextSpeakerIndex := Some 1 |};
     Returned {| completed := false; nextSpeakerIndex := Some 6 |};
     Returned {| completed := false; nextSpeakerIndex := Some 7 |};
     Returned {| completed := true; nextSpeakerIndex := None |}] ->
    os = [Returned {| completed := false; nextSpeakerIndex := Some 1 |};
     Returned {| completed := false; nextSpeakerIndex := Some 6 |};
     Returned {| completed := false; nextSpeakerIndex := Some 7 |};
     Returned {| completed := true; nextSpeakerIndex := None |}] /\
    completes_exactly_on 4 os) as Hboth by (by intros os ->).
  apply Hboth. clear Hboth.
  repeat (rewrite advance_calls_cons;
    erewrite advanceSpeaker_next
      by (repeat (erewrite room_of_set_room_eq; [reflexivity|]); exact Hroom);
    rewrite ?present_roles_set_room, Hroles;
    match goal with |- context [next_index ?S ?x] =>
      let v := eval vm_compute in (next_index S x) in
      change (next_index S x) with v
    end; cbn [fst snd]).
  done.
Qed.

Lemma two_speaker_run_witness :
  role <$> activeSpeakingOrder fullSpeakingOrder (present_roles two_speaker_store 1) =
    [prime_minister; leader_of_opposition; opposition_reply; government_reply] /\
  fst (start 101 1 500 two_speaker_store) = Returned {| success := true |} /\
  fst (advance_calls 1 [1001; 1002; 1003; 1004]
         (snd (start 101 1 500 two_speaker_store))) =
    [Returned {| completed := false; nextSpeakerIndex := Some 1 |};
     Returned {| completed := false; nextSpeakerIndex := Some 6 |};
     Returned {| completed := false; nextSpeakerIndex := Some 7 |};
     Returned {| completed := true; nextSpeakerIndex := None |}] /\
  completes_exactly_on 4
    (fst (advance_calls 1 [1001; 1002; 1003; 1004]
            (snd (start 101 1 500 two_speaker_store)))).
Proof.
  apply (two_speaker_run 101 1 two_speaker_store (created_room 1 101 5)).
  - reflexivity.
  - reflexivity.
  - exists 5. split; [reflexivity|lia].
  - vm_compute. repeat constructor.
  - vm_compute. reflexivity.
Defined.

(** C4, as stated, fails: of five calls after [start] the fourth already
    returns [completed = true], so the debate is not completed exactly on the
    fifth. *)
Lemma not_completed_on_fifth_call :
  ~ completes_exactly_on 5
      (fst (advance_calls 1 [1001; 1002; 1003; 1004; 1005]
              (snd (start 101 1 500 two_speaker_store)))).
Proof. vm_compute. discriminate. Qed.


(** ** Calls on a room that is not in progress *)

(** C3, as the code has it.  [advanceSpeaker] does not read the status: on an
    existing room that is not in progress it is not rejected and no
    [TypeError] escapes; it does what it does on a room in progress.  With
    [pos] the position of the current slot in the active order ([-1] when the
    slot is not in it), either no active slot stands at [pos + 1] and the call
    completes the debate (status completed, phase feedback, end timestamp set
    to the time of the call), or it returns and stores the full-format index
    of the active slot at [pos + 1] and leaves status, phase and timestamps
    as they are.  Called again once the debate is completed, with the index
    still on the last slot of the active order, it returns [completed = true]
    again and leaves status and index as they are, but stores phase feedback,
    whatever the phase was, and overwrites the end timestamp. *)
Theorem advance_outside_progress i now st room :
  room_of st i = Some room ->
  status room <> Status.in_progress ->
  let active := activeSpeakingOrder fullSpeakingOrder (present_roles st i) in
  let pos :=
    findIndex (fun s => bool_decide (Some (role s) = role <$> current_speaker room))
              active in
  (exists r, fst (advanceSpeaker i now st) = Returned r /\
     ((Z.of_nat (length active) <= pos + 1 /\
       r = {| completed := true; nextSpeakerIndex := None |} /\
       room_of (snd (advanceSpeaker i now st)) i =
         Some {| id := id room; roomCode := roomCode room;
                 creatorId := creatorId room; motionId := motionId room;
                 status := Status.completed;
                 currentSpeakerIndex := currentSpeakerIndex room;
                 currentPhase := Phase.feedback;
                 startedAt := startedAt room;
                 endedAt := Some now |}) \/
      (exists n next,
       at_index active (pos + 1) = Some next /\
       at_index fullSpeakingOrder n = Some next /\
       r = {| completed := false; nextSpeakerIndex := Some n |} /\
       room_of (snd (advanceSpeaker i now st)) i =
         Some {| id := id room; roomCode := roomCode room;
                 creatorId := creatorId room; motionId := motionId room;
                 status := status room;
                 currentSpeakerIndex := Some n;
                 currentPhase := currentPhase room;
                 startedAt := startedAt room;
                 endedAt := endedAt room |}))) /\
  (forall speaker,
     status room = Status.completed ->
     current_speaker room = Some speaker ->
     last active = Some speaker ->
     fst (advanceSpeaker i now st) =
       Returned {| completed := true; nextSpeakerIndex := None |} /\
     room_of (snd (advanceSpeaker i now st)) i =
       Some {| id := id room; roomCode := roomCode room;
               creatorId := creatorId room; motionId := motionId room;
               status := status room;
               currentSpeakerIndex := currentSpeakerIndex room;
               currentPhase := Phase.feedback;
               startedAt := startedAt room;
               endedAt := Some now |}).
Proof.
  intros Hroom _ active pos. split.
  - destruct (advanceSpeaker_cases i now st room Hroom)
      as [[Hle Hrun]|(next & Hlt & Hnext & Hrun)];
      rewrite Hrun; cbn [fst snd]; eexists; (split; [done|]).
    + left. split; [exact Hle|]. split; [done|].
      by rewrite (room_of_set_room_eq _ _ _ room).
    + right. eexists. exists next. split; [exact Hnext|]. split.
      * apply (at_index_findIndex_key role);
          [apply fullSpeakingOrder_NoDup_roles|].
        apply (active_order_full (present_roles st i)).
        apply at_index_Some in Hnext as [_ Hnext].
        by apply list_elem_of_lookup_2 in Hnext.
      * split; [done|]. by rewrite (room_of_set_room_eq _ _ _ room).
  - intros speaker Hstatus Hcur Hlast.
    rewrite (advance_last_slot i now st room speaker) by done. cbn [fst snd].
    split; [done|]. rewrite (room_of_set_room_eq _ _ _ room) by done.
    by rewrite apply_completed, Hstatus.
Qed.

Lemma advance_outside_progress_witness :
  fst (advanceSpeaker 1 2000 feedback_done_store) =
    Returned {| completed := true; nextSpeakerIndex := None |} /\
  room_of (snd (advanceSpeaker 1 2000 feedback_done_store)) 1 =
    Some {| id := 1; roomCode := "ABCDEF"; creatorId := 101;
            motionId := Some 5; status := Status.completed;
            currentSpeakerIndex := Some 7; currentPhase := Phase.feedback;
            startedAt := Some 500; endedAt := Some 2000 |}.
Proof.
  destruct (advance_outside_progress 1 2000 feedback_done_store
              {| id := 1; roomCode := "ABCDEF"; creatorId := 101;
                 motionId := Some 5; status := Status.completed;
                 currentSpeakerIndex := Some 7; currentPhase := Phase.completed;
                 startedAt := Some 500; endedAt := Some 1004 |})
    as [_ Hagain].
  - reflexivity.
  - discriminate.
  - apply (Hagain {| role := government_reply; team := government;
                     label := "Government Reply"; time := 240 |});
      reflexivity.
Defined.

(** C3, as stated, fails: on the completed two-speaker room a further call is
    neither rejected nor without effect, it overwrites the end timestamp. *)
Lemma advance_after_completion_changes_room :
  ~ advance_changes_nothing 1 2000 completed_store.
Proof.
  intros Hclaim.
  destruct (Hclaim
    {| id := 1; roomCode := "ABCDEF"; creatorId := 101;
       motionId := Some 5; status := Status.completed;
       currentSpeakerIndex := Some 7; currentPhase := Phase.feedback;
       startedAt := Some 500; endedAt := Some 1004 |}) as [_ Hsame].
  - reflexivity.
  - discriminate.
  - vm_compute in Hsame. discriminate Hsame.
Qed.

(** ** Phases along sequences of calls *)

Lemma phase_of_set_room st j u i :
  phase_of (set_room j u st) i =
  if decide (i = j)
  then (fun p => default p (set_currentPhase u)) <$> phase_of st i
  else phase_of st i.
Proof.
  unfold phase_of. rewrite room_of_set_room. case_decide; [|done].
  by destruct (room_of st i).
Qed.

Lemma start_store c j now st :
  snd (start c j now st) = st \/
  exists n,
    snd (start c j now st) =
    set_room j
      {| set_status := Some Status.in_progress;
         set_currentPhase := Some Phase.debate;
         set_currentSpeakerIndex := Some n;
         set_startedAt := Some now;
         set_endedAt := None |} st.
Proof.
  rewrite start_run. destruct (room_of st j) as [room|]; [|by left].
  destruct (negb _); [by left|]. destruct (not_int _); [by left|].
  destruct (_ <? 1); [by left|]. destruct (negb _); [by left|].
  right. by eexists.
Qed.

Lemma advanceSpeaker_store j now st :
  snd (advanceSpeaker j now st) = st \/
  snd (advanceSpeaker j now st) =
    set_room j
      {| set_status := Some Status.completed;
         set_currentPhase := Some Phase.feedback;
         set_currentSpeakerIndex := None;
         set_startedAt := None;
         set_endedAt := Some now |} st \/
  exists n,
    snd (advanceSpeaker j now st) =
    set_room j
      {| set_status := None;
         set_currentPhase := None;
         set_currentSpeakerIndex := Some n;
         set_startedAt := None;
         set_endedAt := None |} st.
Proof.
  destruct (room_of st j) as [room|] eqn:Hroom.
  - rewrite (advanceSpeaker_next j now st room Hroom).
    destruct (next_index _ _) as [n|]; [right; right; by exists n|right; by left].
  - rewrite advanceSpeaker_run, Hroom. by left.
Qed.

(** One call keeps the phase of a room or, when it is a [start], moves it to
    debate, or, when it is an [advanceSpeaker], to feedback. *)
Lemma call_phase c st i p :
  phase_of st i = Some p ->
  phase_of (call c st) i = Some p \/
  (phase_of (call c st) i = Some Phase.debate /\ ~ is_advance c) \/
  (phase_of (call c st) i = Some Phase.feedback /\ is_advance c).
Proof.
  intros Hp. destruct c as [u j now|j now]; simpl.
  - destruct (start_store u j now st) as [->|[n ->]]; [by left|].
    rewrite phase_of_set_room, Hp. case_decide; simpl; naive_solver.
  - destruct (advanceSpeaker_store j now st) as [->|[->|[n ->]]]; [by left|..];
      rewrite phase_of_set_room, Hp; case_decide; simpl; naive_solver.
Qed.

Lemma calls_cons c cs st : calls (c :: cs) st = calls cs (call c st).
Proof. done. Qed.

Lemma calls_never_setup cs : forall st i p,
  phase_of st i = Some p ->
  exists p', phase_of (calls cs st) i = Some p' /\
    (p <> Phase.setup -> p' <> Phase.setup).
Proof.
  induction cs as [|c cs IH]; intros st i p Hp; [by exists p|].
  rewrite calls_cons.
  destruct (call_phase c st i p Hp) as [Hc|[[Hc _]|[Hc _]]];
    destruct (IH _ _ _ Hc) as (p' & Hp' & Hleft); exists p';
    (split; [done|]); intros ?; by apply Hleft.
Qed.

Lemma advances_forward cs : forall st i p,
  Forall is_advance cs ->
  phase_of st i = Some p ->
  p <> Phase.completed ->
  exists p', phase_of (calls cs st) i = Some p' /\
    Phase.rank p <= Phase.rank p' /\ p' <> Phase.completed.
Proof.
  induction cs as [|c cs IH]; intros st i p Hadv Hp Hnot.
  { exists p. split; [done|]. split; [lia|done]. }
  apply Forall_cons in Hadv as [Hc Hadv]. rewrite calls_cons.
  destruct (call_phase c st i p Hp) as [Hstep|[[_ Hno]|[Hstep _]]]; [|done|].
  - by apply IH.
  - destruct (IH _ _ _ Hadv Hstep) as (p' & Hp' & Hrank & Hnot'); [done|].
    exists p'. split; [done|]. split; [|done].
    destruct p; simpl in *; (done || lia).
Qed.

(** C7, as the code has it.  Neither procedure reads the status.  Along
    every sequence of [start] and [advanceSpeaker] calls a room that has left
    phase setup never returns to it, and along [advanceSpeaker] calls alone a
    room in phase setup, debate or feedback never moves to an earlier phase.
    [start], when its five preconditions hold, moves the room to phase debate
    from any status and phase. *)
Theorem phase_transitions st i p :
  phase_of st i = Some p ->
  (forall cs, exists p',
     phase_of (calls cs st) i = Some p' /\
     (p <> Phase.setup -> p' <> Phase.setup)) /\
  (forall cs,
     Forall is_advance cs -> p <> Phase.completed ->
     exists p', phase_of (calls cs st) i = Some p' /\
       Phase.rank p <= Phase.rank p' /\ p' <> Phase.completed) /\
  (forall c now room,
     room_of st i = Some room ->
     creatorId room = c ->
     motion_attached room ->
     roster st i <> [] ->
     Forall (fun p => isReady p = Some true) (roster st i) ->
     phase_of (call (CallStart c i now) st) i = Some Phase.debate).
Proof.
  intros Hp. split; [|split].
  - intros cs. by apply calls_never_setup.
  - intros cs Hadv Hnot. by apply advances_forward.
  - intros c now room Hroom Hc Hmotion Hjoined Hready. simpl.
    rewrite (start_success c i now st room) by done. cbn [snd].
    rewrite phase_of_set_room, decide_True, Hp by done. done.
Qed.

Lemma phase_transitions_witness :
  (forall cs, exists p',
     phase_of (calls cs completed_store) 1 = Some p' /\ p' <> Phase.setup) /\
  (forall cs,
     Forall is_advance cs ->
     exists p', phase_of (calls cs completed_store) 1 = Some p' /\
       Phase.rank Phase.feedback <= Phase.rank p' /\ p' <> Phase.completed) /\
  phase_of (call (CallStart 101 1 2000) completed_store) 1 = Some Phase.debate.
Proof.
  destruct (phase_transitions completed_store 1 Phase.feedback)
    as (Hsetup & Hforward & Hstart); [reflexivity|].
  split; [|split].
  - intros cs. destruct (Hsetup cs) as (p' & Hp' & Hleft).
    exists p'. split; [exact Hp'|]. apply Hleft. discriminate.
  - intros cs Hadv. apply Hforward; [exact Hadv|discriminate].
  - apply (Hstart 101 2000
             {| id := 1; roomCode := "ABCDEF"; creatorId := 101;
                motionId := Some 5; status := Status.completed;
                currentSpeakerIndex := Some 7; currentPhase := Phase.feedback;
                startedAt := Some 500; endedAt := Some 1004 |}).
    + reflexivity.
    + reflexivity.
    + exists 5. split; [reflexivity|lia].
    + vm_compute. discriminate.
    + vm_compute. repeat constructor.
Defined.

(** C7, as stated, fails: [start] has no guard on the status.  After the
    two-speaker debate has run to phase feedback, a further [start] by the
    creator moves the room back to phase debate. *)
Lemma start_after_completion_regresses :
  ~ phase_never_regresses two_speaker_store 1.
Proof.
  intros Hclaim.
  specialize (Hclaim
    [CallStart 101 1 500; CallAdvanceSpeaker 1 1001; CallAdvanceSpeaker 1 1002;
     CallAdvanceSpeaker 1 1003; CallAdvanceSpeaker 1 1004]
    (CallStart 101 1 2000) Phase.feedback Phase.debate).
  assert (Phase.rank Phase.feedback <= Phase.rank Phase.debate) as Hrank.
  { apply Hclaim; reflexivity. }
  simpl in Hrank. lia.
Qed.

(** * Managing the roster *)

(** ** Rooms and participants in the store *)

Lemma getDebateRoomByCode_run same_code code st :
  getDebateRoomByCode same_code code st = (Returned (room_by_code same_code st code), st).
Proof. unfold room_by_code, getDebateRoomByCode. by destruct (connected st). Qed.

Lemma getParticipantWithUser_run i u st :
  getParticipantWithUser i u st = (Returned (participant_of st i u), st).
Proof. unfold participant_of, getParticipantWithUser. by destruct (connected st). Qed.

Lemma room_by_code_connected same_code st code room :
  room_by_code same_code st code = Some room -> connected st = true.
Proof.
  unfold room_by_code, getDebateRoomByCode. by destruct (connected st).
Qed.

Lemma participant_of_connected st i u p :
  participant_of st i u = Some p -> connected st = true.
Proof.
  unfold participant_of, getParticipantWithUser. by destruct (connected st).
Qed.

Lemma filter_filter {A} (p q : A -> bool) (l : list A) :
  List.filter p (List.filter q l) = List.filter (fun x => q x && p x) l.
Proof.
  induction l as [|a l IH]; simpl; [done|].
  destruct (q a); simpl; [|done]. destruct (p a); by rewrite IH.
Qed.

Lemma filter_ext_in {A} (p q : A -> bool) (l : list A) :
  (forall x, x ∈ l -> p x = q x) -> List.filter p l = List.filter q l.
Proof.
  intros H. apply List.filter_ext_in. intros x Hx. by apply H, list_elem_of_In.
Qed.

(** The row of a user in a room is the first row of that user in the roster
    of the room. *)
Lemma participant_of_roster st i u :
  participant_of st i u = head (List.filter (fun p => userId p =? u) (roster st i)).
Proof.
  unfold participant_of, roster, getParticipantWithUser, getRoomParticipants.
  destruct (connected st); simpl; [|done]. by rewrite filter_filter.
Qed.

Lemma head_filter_None {A} (p : A -> bool) (l : list A) :
  head (List.filter p l) = None <-> forall x, x ∈ l -> p x = false.
Proof.
  split.
  - intros Hhead x Hx. destruct (p x) eqn:Hpx; [|done].
    assert (x ∈ List.filter p l) as Hin by (by apply elem_of_filter).
    destruct (List.filter p l); [by apply not_elem_of_nil in Hin|done].
  - intros Hall. destruct (List.filter p l) as [|a k] eqn:Hf; [done|].
    assert (a ∈ List.filter p l) as Hin by (rewrite Hf; apply list_elem_of_here).
    apply elem_of_filter in Hin as [Hin Hpa]. rewrite (Hall a Hin) in Hpa. done.
Qed.

Lemma head_filter_Some {A} (p : A -> bool) (l : list A) x :
  head (List.filter p l) = Some x -> x ∈ l /\ p x = true.
Proof.
  intros Hhead. apply elem_of_filter.
  destruct (List.filter p l); simplify_eq/=. apply list_elem_of_here.
Qed.

Lemma participant_of_None st i u :
  participant_of st i u = None <->
  forall p, p ∈ roster st i -> userId p <> u.
Proof.
  rewrite participant_of_roster, head_filter_None.
  split; intros H p Hp; specialize (H p Hp); lia.
Qed.

Lemma participant_of_Some st i u p :
  participant_of st i u = Some p -> p ∈ roster st i /\ userId p = u.
Proof.
  rewrite participant_of_roster. intros [? ?]%head_filter_Some. split; [done|lia].
Qed.

Lemma elem_of_roster st i p :
  p ∈ roster st i <->
  connected st = true /\ p ∈ debateParticipants st /\ roomId p = i.
Proof.
  unfold roster, getRoomParticipants. destruct (connected st); simpl.
  - rewrite elem_of_filter. split; [intros [? ?]|intros (_ & ? & ?)];
      repeat split; (done || lia).
  - split; [by intros ?%not_elem_of_nil|by intros [? _]].
Qed.

Lemma roster_addParticipant n i u t r rd st j :
  connected st = true ->
  roster (snd (addParticipant n i u t r rd st)) j =
  (roster st j ++
     if decide (j = i)
     then [{| participantId := n; roomId := i; userId := u;
              participantTeam := t; speakerRole := r; isReady := rd |}]
     else [])%list.
Proof.
  intros Hc. unfold roster, getRoomParticipants, addParticipant.
  destruct st as [c rooms ps]. simpl in Hc. subst c. simpl.
  rewrite List.filter_app. simpl.
  destruct (Z.eqb_spec i j); case_decide; (done || lia).
Qed.

Lemma roster_removeParticipant i u st j :
  roster (snd (removeParticipant i u st)) j =
  List.filter (fun p => negb ((roomId p =? i) && (userId p =? u))) (roster st j).
Proof.
  unfold roster, getRoomParticipants, removeParticipant.
  destruct st as [[] rooms ps]; simpl; [|done].
  rewrite !filter_filter. apply filter_ext_in. intros p _. apply andb_comm.
Qed.

Lemma filter_fmap_same {A} (q : A -> bool) (f : A -> A) (l : list A) :
  (forall x, q (f x) = q x) ->
  List.filter q (f <$> l) = f <$> List.filter q l.
Proof.
  intros Hq. induction l as [|a l IH]; [done|].
  rewrite fmap_cons. simpl. rewrite Hq. destruct (q a); by rewrite ?fmap_cons, IH.
Qed.

Lemma roster_updateParticipantReady pid b st j :
  roster (snd (updateParticipantReady pid b st)) j =
  (fun p => if participantId p =? pid then with_ready b p else p) <$> roster st j.
Proof.
  unfold roster, getRoomParticipants, updateParticipantReady.
  destruct st as [[] rooms ps]; simpl; [|done].
  apply filter_fmap_same. intros p. by destruct (participantId p =? pid).
Qed.

(** ** The three procedures, run on a store *)

Lemma team_check t r :
  (bool_decide (t = government)
   && negb (includes [SpeakerRole.prime_minister; SpeakerRole.deputy_prime_minister;
                      SpeakerRole.government_whip] r) = false /\
   bool_decide (t = opposition)
   && negb (includes [SpeakerRole.leader_of_opposition;
                      SpeakerRole.deputy_leader_of_opposition;
                      SpeakerRole.opposition_whip] r) = false) <->
  t = role_team r.
Proof. destruct t, r; compute; intuition congruence. Qed.

Lemma role_taken ps r :
  existsb (fun p => bool_decide (speakerRole p = r)) ps = false <->
  forall p, p ∈ ps -> speakerRole p <> r.
Proof.
  split.
  - intros Hex p Hp Hr. apply list_elem_of_In in Hp.
    assert (existsb (fun p => bool_decide (speakerRole p = r)) ps = true);
      [|congruence].
    apply existsb_exists. exists p. split; [done|]. by apply bool_decide_eq_true.
  - intros Hall. destruct (existsb _ ps) eqn:Hex; [|done].
    apply existsb_exists in Hex as (p & Hp%list_elem_of_In & Hr%bool_decide_eq_true).
    by destruct (Hall p Hp).
Qed.

Lemma join_run same_code u code t r n st :
  join same_code u code t r n st =
  match room_by_code same_code st code with
  | None => (Thrown {| code := NOT_FOUND; message := "Room not found" |}, st)
  | Some room =>
      if negb (bool_decide (status room = Status.waiting)) then
        (Thrown {| code := BAD_REQUEST;
                   message := "Room is not accepting participants" |}, st)
      else
        match participant_of st (id room) u with
        | Some _ =>
            (Thrown {| code := BAD_REQUEST;
                       message := "You are already in this room" |}, st)
        | None =>
            if existsb (fun p => bool_decide (speakerRole p = r))
                       (roster st (id room)) then
              (Thrown {| code := BAD_REQUEST;
                         message := "This speaker role is already taken" |}, st)
            else if bool_decide (t = government)
                    && negb (includes
                         [SpeakerRole.prime_minister;
                          SpeakerRole.deputy_prime_minister;
                          SpeakerRole.government_whip] r) then
              (Thrown {| code := BAD_REQUEST;
                         message := "Invalid role for Government team" |}, st)
            else if bool_decide (t = opposition)
                    && negb (includes
                         [SpeakerRole.leader_of_opposition;
                          SpeakerRole.deputy_leader_of_opposition;
                          SpeakerRole.opposition_whip] r) then
              (Thrown {| code := BAD_REQUEST;
                         message := "Invalid role for Opposition team" |}, st)
            else
              (Returned {| join_success := true; join_roomId := id room |},
               snd (addParticipant n (id room) u t r (Some false) st))
        end
  end.
Proof.
  unfold join, bind. rewrite getDebateRoomByCode_run.
  destruct (room_by_code same_code st code) as [room|] eqn:Hroom; [|done].
  apply room_by_code_connected in Hroom.
  destruct (negb _); [done|]. rewrite getParticipantWithUser_run.
  destruct (participant_of st (id room) u); [done|].
  rewrite getRoomParticipants_run. cbv zeta.
  destruct (existsb _ _); [done|].
  destruct (_ && _); [done|]. destruct (_ && _); [done|].
  unfold addParticipant. by rewrite Hroom.
Qed.

Lemma leave_run u i st :
  leave u i st = (Returned {| success := true |}, snd (removeParticipant i u st)).
Proof.
  unfold leave, bind, removeParticipant. by destruct (connected st).
Qed.

Lemma setReady_run u i b st :
  setReady u i b st =
  match participant_of st i u with
  | None => (Thrown {| code := NOT_FOUND; message := "You are not in this room" |}, st)
  | Some p =>
      (Returned {| success := true |},
       snd (updateParticipantReady (participantId p) b st))
  end.
Proof.
  unfold setReady, bind. rewrite getParticipantWithUser_run.
  destruct (participant_of st i u); [|done].
  unfold updateParticipantReady. by destruct (connected st).
Qed.

(** ** Joining *)

Lemma rooms_addParticipant n i u t r rd st :
  debateRooms (snd (addParticipant n i u t r rd st)) = debateRooms st.
Proof. unfold addParticipant. by destruct st as [[] rooms ps]. Qed.

(** What a successful [join] does. *)
Lemma join_ok same_code u code t r n st room :
  may_join same_code st u code t r room ->
  join same_code u code t r n st =
    (Returned {| join_success := true; join_roomId := id room |},
     snd (join same_code u code t r n st)) /\
  roster (snd (join same_code u code t r n st)) (id room) =
    (roster st (id room) ++ [new_participant n (id room) u t r])%list /\
  (forall j, j <> id room ->
     roster (snd (join same_code u code t r n st)) j = roster st j) /\
  debateRooms (snd (join same_code u code t r n st)) = debateRooms st.
Proof.
  intros (Hroom & Hstatus & Huser & Hrole & Hteam).
  pose proof (room_by_code_connected _ _ _ _ Hroom) as Hc.
  apply role_taken in Hrole. apply team_check in Hteam as [Hgov Hopp].
  rewrite join_run, Hroom, Hstatus, Huser, Hrole, Hgov, Hopp. cbn [snd negb].
  rewrite bool_decide_eq_true_2 by done. cbn [snd negb].
  split; [done|]. split; [|split].
  - rewrite roster_addParticipant by done. by rewrite decide_True.
  - intros j Hj. rewrite roster_addParticipant by done.
    rewrite decide_False by done. apply app_nil_r.
  - apply rooms_addParticipant.
Qed.

(** X1. When the code names a waiting room, the caller is not yet in it, the
    role is free and belongs to the chosen team, [join] returns the room's id
    and adds exactly one participant, not ready, at the end of that room's
    roster; the rosters of the other rooms and the rooms themselves stay as
    they are. *)
Theorem join_adds_participant same_code u code t r n st room :
  may_join same_code st u code t r room ->
  join same_code u code t r n st =
    (Returned {| join_success := true; join_roomId := id room |},
     snd (join same_code u code t r n st)) /\
  roster (snd (join same_code u code t r n st)) (id room) =
    (roster st (id room) ++ [new_participant n (id room) u t r])%list /\
  (forall j, j <> id room ->
     roster (snd (join same_code u code t r n st)) j = roster st j) /\
  debateRooms (snd (join same_code u code t r n st)) = debateRooms st.
Proof. apply join_ok. Qed.

Lemma join_adds_participant_witness :
  roster (snd (join exact_code 103 "ABCDEF" government
                 SpeakerRole.deputy_prime_minister 3 two_speaker_store)) 1 =
    [joined 1 government SpeakerRole.prime_minister true;
     joined 2 opposition SpeakerRole.leader_of_opposition true;
     new_participant 3 1 103 government SpeakerRole.deputy_prime_minister].
Proof.
  destruct (join_adds_participant exact_code 103 "ABCDEF" government
              SpeakerRole.deputy_prime_minister 3 two_speaker_store
              (created_room 1 101 5)) as (_ & Hroster & _).
  - repeat split; try reflexivity.
    intros p Hp. vm_compute in Hp.
    apply list_elem_of_In in Hp. simpl in Hp.
    destruct Hp as [<-|[<-|[]]]; discriminate.
  - exact Hroster.
Defined.

(** The two ways [join] ends. *)
Lemma join_cases same_code u code t r n st :
  (exists room, may_join same_code st u code t r room) \/
  (exists e, join same_code u code t r n st = (Thrown e, st)).
Proof.
  rewrite join_run. unfold may_join.
  destruct (room_by_code same_code st code) as [room|]; [|right; by eexists].
  destruct (decide (status room = Status.waiting)) as [Hstatus|Hstatus].
  2: { rewrite bool_decide_eq_false_2 by done. right. by eexists. }
  rewrite bool_decide_eq_true_2 by done. cbn [negb].
  destruct (participant_of st (id room) u) eqn:Huser; [right; by eexists|].
  destruct (existsb _ _) eqn:Hrole; [right; by eexists|].
  pose proof (team_check t r) as Hteam.
  destruct (bool_decide (t = government) && _) eqn:Hgov; [right; by eexists|].
  destruct (bool_decide (t = opposition) && _) eqn:Hopp; [right; by eexists|].
  left. exists room. split; [done|]. split; [done|]. split; [done|].
  split; [by apply role_taken|by apply Hteam].
Qed.


(** ** Rosters stay well formed *)

Lemma roster_wf_nil : roster_wf [].
Proof. repeat split; constructor. Qed.

Lemma roster_wf_snoc ps p :
  roster_wf ps ->
  (forall q, q ∈ ps -> speakerRole q <> speakerRole p) ->
  (forall q, q ∈ ps -> userId q <> userId p) ->
  participantTeam p = role_team (speakerRole p) ->
  roster_wf (ps ++ [p]).
Proof.
  intros (Hroles & Husers & Hteams) Hrole Huser Hteam.
  unfold roster_wf. rewrite !fmap_app. simpl. repeat split.
  - apply NoDup_app. split; [done|]. split; [|apply NoDup_singleton].
    intros x (q & -> & Hq)%list_elem_of_fmap Heq%list_elem_of_singleton.
    by apply (Hrole q).
  - apply NoDup_app. split; [done|]. split; [|apply NoDup_singleton].
    intros x (q & -> & Hq)%list_elem_of_fmap Heq%list_elem_of_singleton.
    by apply (Huser q).
  - apply Forall_app. split; [done|]. by constructor.
Qed.

Lemma roster_wf_filter f ps : roster_wf ps -> roster_wf (List.filter f ps).
Proof.
  intros (Hroles & Husers & Hteams). repeat split.
  - by apply NoDup_key_filter.
  - by apply NoDup_key_filter.
  - apply Forall_forall. intros p [Hp _]%elem_of_filter.
    by eapply Forall_forall in Hteams.
Qed.

Lemma roster_wf_ready pid b ps :
  roster_wf ps ->
  roster_wf ((fun p => if participantId p =? pid then with_ready b p else p) <$> ps).
Proof.
  intros (Hroles & Husers & Hteams). unfold roster_wf.
  rewrite <- !list_fmap_compose.
  rewrite (list_fmap_ext _ speakerRole ps), (list_fmap_ext _ userId ps);
    [|intros ? p _; simpl; by destruct (_ =? _)..].
  repeat split; [done..|].
  apply Forall_fmap. eapply Forall_impl; [exact Hteams|].
  intros p Hp. simpl. by destruct (_ =? _).
Qed.

Lemma room_call_roster_wf same_code c st :
  rosters_wf st -> rosters_wf (room_call same_code c st).
Proof.
  intros Hwf j. destruct c as [u code t r n|u i|u i b|u i now|i now]; simpl.
  - destruct (join_cases same_code u code t r n st)
      as [[room Hmay]|[e ->]]; [|apply Hwf].
    destruct (join_ok same_code u code t r n st room Hmay)
      as (_ & Hroster & Hothers & _).
    destruct (decide (j = id room)) as [->|Hj]; [|rewrite Hothers by done; apply Hwf].
    rewrite Hroster. destruct Hmay as (_ & _ & Huser & Hrole & Hteam).
    apply roster_wf_snoc; [apply Hwf|done| |done].
    by apply participant_of_None.
  - rewrite leave_run. cbn [snd]. rewrite roster_removeParticipant.
    apply roster_wf_filter, Hwf.
  - rewrite setReady_run. destruct (participant_of st i u); [|apply Hwf].
    cbn [snd]. rewrite roster_updateParticipantReady. apply roster_wf_ready, Hwf.
  - destruct (start_store u i now st) as [->|[n ->]]; [apply Hwf|].
    rewrite roster_set_room. apply Hwf.
  - destruct (advanceSpeaker_store i now st) as [->|[->|[n ->]]];
      rewrite ?roster_set_room; apply Hwf.
Qed.

Lemma room_calls_roster_wf same_code cs st :
  rosters_wf st -> rosters_wf (room_calls same_code cs st).
Proof.
  revert st. induction cs as [|c cs IH]; intros st Hwf; [done|].
  simpl. apply IH. by apply room_call_roster_wf.
Qed.

(** X3. Along every sequence of [join], [leave], [setReady], [start] and
    [advanceSpeaker] calls the rosters stay well formed: in no room do two
    participants hold the same role, no user sits twice in a room, and every
    participant is on the team of the role held. *)
Theorem rosters_stay_wf same_code cs st :
  rosters_wf st -> rosters_wf (room_calls same_code cs st).
Proof. apply room_calls_roster_wf. Qed.

Lemma rosters_stay_wf_witness :
  rosters_wf
    (room_calls exact_code
       [DoJoin 101 "ABCDEF" government SpeakerRole.prime_minister 1;
        DoJoin 102 "ABCDEF" opposition SpeakerRole.prime_minister 2;
        DoJoin 102 "ABCDEF" government SpeakerRole.prime_minister 3;
        DoJoin 102 "ABCDEF" opposition SpeakerRole.leader_of_opposition 4;
        DoSetReady 101 1 true; DoSetReady 102 1 true;
        DoStart 101 1 500; DoLeave 102 1; DoAdvanceSpeaker 1 1001]
       empty_room_store).
Proof.
  apply (rosters_stay_wf exact_code).
  intros i. apply roster_wf_nil.
Defined.

(** ** Leaving *)

Lemma filter_all {A} (p : A -> bool) (l : list A) :
  (forall x, x ∈ l -> p x = true) -> List.filter p l = l.
Proof.
  intros Hall. induction l as [|a l IH]; simpl; [done|].
  rewrite (Hall a) by apply list_elem_of_here.
  f_equal. apply IH. intros x Hx. by apply Hall, list_elem_of_further.
Qed.

Lemma rooms_removeParticipant i u st :
  debateRooms (snd (removeParticipant i u st)) = debateRooms st.
Proof. unfold removeParticipant. by destruct st as [[] rooms ps]. Qed.

Lemma rooms_updateParticipantReady pid b st :
  debateRooms (snd (updateParticipantReady pid b st)) = debateRooms st.
Proof. unfold updateParticipantReady. by destruct st as [[] rooms ps]. Qed.

Lemma roster_leave u i st j :
  roster (snd (leave u i st)) j =
  if decide (j = i)
  then List.filter (fun p => negb (userId p =? u)) (roster st j)
  else roster st j.
Proof.
  rewrite leave_run. cbn [snd]. rewrite roster_removeParticipant.
  case_decide as Hj.
  - apply filter_ext_in. intros p (_ & _ & Hp)%elem_of_roster.
    subst j. by rewrite <- Hp, Z.eqb_refl.
  - apply filter_all. intros p (_ & _ & Hp)%elem_of_roster.
    destruct (Z.eqb_spec (roomId p) i); [congruence|done].
Qed.

(** X4. [leave] always answers success, whether or not the user sits in the
    room: afterwards the user has no row in that room, the other participants
    of the room are there as before, in the same order, and the other rooms'
    rosters and the rooms are as they were. *)
Theorem leave_removes_user u i st :
  fst (leave u i st) = Returned {| success := true |} /\
  participant_of (snd (leave u i st)) i u = None /\
  roster (snd (leave u i st)) i =
    List.filter (fun p => negb (userId p =? u)) (roster st i) /\
  (forall j, j <> i -> roster (snd (leave u i st)) j = roster st j) /\
  debateRooms (snd (leave u i st)) = debateRooms st.
Proof.
  split; [by rewrite leave_run|]. split; [|split; [|split]].
  - apply participant_of_None. intros p Hp.
    rewrite roster_leave, decide_True in Hp by done.
    apply elem_of_filter in Hp as [_ Hp].
    destruct (Z.eqb_spec (userId p) u); [done|congruence].
  - by rewrite roster_leave, decide_True.
  - intros j Hj. by rewrite roster_leave, decide_False.
  - rewrite leave_run. apply rooms_removeParticipant.
Qed.

(** X5. Joining and leaving again is a round trip: after a successful [join]
    the caller's [leave] of that room gives back the store as it was. *)
Theorem join_then_leave same_code u code t r n st room :
  may_join same_code st u code t r room ->
  snd (leave u (id room) (snd (join same_code u code t r n st))) = st.
Proof.
  intros Hmay.
  pose proof Hmay as (Hroom & Hstatus & Huser & Hrole & Hteam).
  pose proof (room_by_code_connected _ _ _ _ Hroom) as Hc.
  apply role_taken in Hrole. apply team_check in Hteam as [Hgov Hopp].
  rewrite join_run, Hroom, Hstatus, Huser, Hrole, Hgov, Hopp.
  rewrite bool_decide_eq_true_2 by done. cbn [snd negb].
  rewrite leave_run. cbn [snd].
  unfold removeParticipant, addParticipant.
  destruct st as [c rooms ps]. simpl in Hc. subst c. simpl. f_equal.
  rewrite List.filter_app. simpl. rewrite !Z.eqb_refl. simpl.
  rewrite app_nil_r. apply filter_all. intros p Hp.
  destruct (Z.eqb_spec (roomId p) (id room)) as [Hi|]; [|done].
  destruct (Z.eqb_spec (userId p) u) as [Hu|]; [|done]. exfalso.
  rewrite participant_of_None in Huser. apply (Huser p); [|done].
  apply elem_of_roster. by simpl.
Qed.

Lemma join_then_leave_witness :
  snd (leave 103 1
         (snd (join exact_code 103 "ABCDEF" government
                 SpeakerRole.deputy_prime_minister 3 two_speaker_store)))
  = two_speaker_store.
Proof.
  apply (join_then_leave exact_code 103 "ABCDEF" government
           SpeakerRole.deputy_prime_minister 3 two_speaker_store
           (created_room 1 101 5)).
  repeat split; try reflexivity.
  intros p Hp. vm_compute in Hp.
  apply list_elem_of_In in Hp. simpl in Hp.
  destruct Hp as [<-|[<-|[]]]; discriminate.
Defined.

(** ** Readiness *)

Lemma room_of_rooms st st' i :
  connected st' = connected st -> debateRooms st' = debateRooms st ->
  room_of st' i = room_of st i.
Proof.
  unfold room_of, getDebateRoomById. intros -> ->. by destruct (connected st).
Qed.

Lemma connected_updateParticipantReady pid b st :
  connected (snd (updateParticipantReady pid b st)) = connected st.
Proof. unfold updateParticipantReady. by destruct st as [[] rooms ps]. Qed.

Lemma connected_addParticipant n i u t r rd st :
  connected (snd (addParticipant n i u t r rd st)) = connected st.
Proof. unfold addParticipant. by destruct st as [[] rooms ps]. Qed.

Lemma connected_removeParticipant i u st :
  connected (snd (removeParticipant i u st)) = connected st.
Proof. unfold removeParticipant. by destruct st as [[] rooms ps]. Qed.

Lemma roles_of_ready pid b ps :
  roles_of ((fun p => if participantId p =? pid then with_ready b p else p) <$> ps)
  = roles_of ps.
Proof.
  unfold roles_of. rewrite <- list_fmap_compose. f_equal.
  apply list_fmap_ext. intros ? p _. simpl. by destruct (_ =? _).
Qed.

Lemma head_fmap {A B} (f : A -> B) (l : list A) : head (f <$> l) = f <$> head l.
Proof. by destruct l. Qed.

(** What a successful [setReady] does. *)
Lemma setReady_ok u i b st p :
  participant_of st i u = Some p ->
  setReady u i b st =
    (Returned {| success := true |},
     snd (updateParticipantReady (participantId p) b st)) /\
  participant_of (snd (setReady u i b st)) i u = Some (with_ready b p) /\
  (forall j,
     roster (snd (setReady u i b st)) j =
     (fun q => if participantId q =? participantId p then with_ready b q else q)
       <$> roster st j) /\
  (forall j, room_of (snd (setReady u i b st)) j = room_of st j).
Proof.
  intros Hp. rewrite setReady_run, Hp. cbn [snd]. split; [done|].
  split; [|split].
  - rewrite participant_of_roster, roster_updateParticipantReady.
    rewrite filter_fmap_same by (intros q; by destruct (participantId q =? _)).
    rewrite head_fmap, <- participant_of_roster, Hp. simpl.
    by rewrite Z.eqb_refl.
  - intros j. apply roster_updateParticipantReady.
  - intros j. apply room_of_rooms;
      [apply connected_updateParticipantReady|apply rooms_updateParticipantReady].
Qed.

(** X6. [setReady] by a user who sits in the room answers success and sets
    the ready flag of that user's row, which [getParticipantWithUser] then
    returns with the new flag; the rows with another id, the roles present in
    every room and the rooms are as they were. *)
Theorem setReady_sets_flag u i b st p :
  participant_of st i u = Some p ->
  fst (setReady u i b st) = Returned {| success := true |} /\
  participant_of (snd (setReady u i b st)) i u = Some (with_ready b p) /\
  (forall j q, q ∈ roster st j -> participantId q <> participantId p ->
     q ∈ roster (snd (setReady u i b st)) j) /\
  (forall j, present_roles (snd (setReady u i b st)) j = present_roles st j) /\
  (forall j, room_of (snd (setReady u i b st)) j = room_of st j).
Proof.
  intros Hp.
  destruct (setReady_ok u i b st p Hp) as (Hrun & Hrow & Hroster & Hrooms).
  split; [by rewrite Hrun|]. split; [done|]. split; [|split; [|done]].
  - intros j q Hq Hne. rewrite Hroster. apply list_elem_of_fmap.
    exists q. split; [|done]. destruct (Z.eqb_spec (participantId q) (participantId p));
      [congruence|done].
  - intros j. unfold present_roles. rewrite Hroster. apply roles_of_ready.
Qed.

Lemma setReady_sets_flag_witness :
  participant_of (snd (setReady 102 1 true not_ready_store)) 1 102 =
    Some (joined 2 opposition SpeakerRole.leader_of_opposition true).
Proof.
  destruct (setReady_sets_flag 102 1 true not_ready_store
              (joined 2 opposition SpeakerRole.leader_of_opposition false))
    as (_ & Hrow & _).
  - reflexivity.
  - exact Hrow.
Defined.

(** X7. When all the other participants of a well-formed roster are ready,
    [setReady(true)] by the one who is left lets the creator start the debate:
    the [start] that follows returns success. *)
Theorem last_ready_then_start c u i now st room p :
  room_of st i = Some room ->
  creatorId room = c ->
  motion_attached room ->
  roster_wf (roster st i) ->
  participant_of st i u = Some p ->
  (forall q, q ∈ roster st i -> userId q <> u -> isReady q = Some true) ->
  fst (start c i now (snd (setReady u i true st))) = Returned {| success := true |}.
Proof.
  intros Hroom Hc Hmotion (_ & Husers & _) Hp Hothers.
  destruct (setReady_ok u i true st p Hp) as (_ & _ & Hroster & Hrooms).
  apply participant_of_Some in Hp as [Hin Hu].
  rewrite (start_success c i now _ room); [done|by rewrite Hrooms|done..| |].
  - rewrite Hroster. destruct (roster st i); [by apply not_elem_of_nil in Hin|done].
  - rewrite Hroster. apply Forall_fmap, Forall_forall. intros q Hq. simpl.
    destruct (Z.eqb_spec (participantId q) (participantId p)) as [Hid|Hid]; [done|].
    apply Hothers; [done|]. intros Hqu. apply Hid. f_equal.
    apply (key_unique userId (roster st i)); [done..|congruence].
Qed.

Lemma last_ready_then_start_witness :
  fst (start 101 1 500 (snd (setReady 102 1 true not_ready_store)))
  = Returned {| success := true |}.
Proof.
  apply (last_ready_then_start 101 102 1 500 not_ready_store (created_room 1 101 5)
           (joined 2 opposition SpeakerRole.leader_of_opposition false)).
  - reflexivity.
  - reflexivity.
  - exists 5. split; [reflexivity|lia].
  - vm_compute. repeat split; repeat constructor; vm_compute;
      intros H; apply list_elem_of_In in H; simpl in H; intuition discriminate.
  - reflexivity.
  - intros q Hq Hu. vm_compute in Hq. apply list_elem_of_In in Hq. simpl in Hq.
    destruct Hq as [<-|[<-|[]]]; [reflexivity|]. exfalso. apply Hu. reflexivity.
Defined.

(** X8. A newcomer blocks the start: right after a successful [join] the
    creator's [start] of that room, motion attached, throws the precondition
    failure "All participants must be ready" and changes nothing. *)
Theorem start_after_join_blocked same_code c u code t r n now st room :
  may_join same_code st u code t r room ->
  room_of st (id room) = Some room ->
  creatorId room = c ->
  motion_attached room ->
  start c (id room) now (snd (join same_code u code t r n st)) =
    (Thrown {| code := BAD_REQUEST; message := "All participants must be ready" |},
     snd (join same_code u code t r n st)).
Proof.
  intros Hmay Hroom Hc Hmotion.
  destruct (join_ok same_code u code t r n st room Hmay)
    as (Hrun & Hroster & _ & Hrooms).
  assert (room_of (snd (join same_code u code t r n st)) (id room) = Some room)
    as Hroom'.
  { rewrite <- Hroom. apply room_of_rooms; [|done].
    destruct Hmay as (Hcode & Hstatus & Huser & Hrole & Hteam).
    apply role_taken in Hrole. apply team_check in Hteam as [Hgov Hopp].
    rewrite join_run, Hcode, Hstatus, Huser, Hrole, Hgov, Hopp.
    rewrite bool_decide_eq_true_2 by done. apply connected_addParticipant. }
  rewrite start_run, Hroom', Hroster, Hc, Z.eqb_refl. cbn [negb].
  rewrite (motion_attached_truthy _ Hmotion).
  rewrite length_app, forallb_app. simpl. rewrite andb_false_r. cbn [negb].
  destruct (Z.ltb_spec (Z.of_nat (length (roster st (id room)) + 1)) 1); [lia|done].
Qed.

Lemma start_after_join_blocked_witness :
  start 101 1 500
    (snd (join exact_code 103 "ABCDEF" government
            SpeakerRole.deputy_prime_minister 3 two_speaker_store)) =
  (Thrown {| code := BAD_REQUEST; message := "All participants must be ready" |},
   snd (join exact_code 103 "ABCDEF" government
          SpeakerRole.deputy_prime_minister 3 two_speaker_store)).
Proof.
  apply (start_after_join_blocked exact_code 101 103 "ABCDEF" government
           SpeakerRole.deputy_prime_minister 3 500 two_speaker_store
           (created_room 1 101 5)).
  - repeat split; try reflexivity.
    intros p Hp. vm_compute in Hp.
    apply list_elem_of_In in Hp. simpl in Hp.
    destruct Hp as [<-|[<-|[]]]; discriminate.
  - reflexivity.
  - reflexivity.
  - exists 5. split; [reflexivity|lia].
Defined.

(** ** A roster is closed once its room has left waiting *)

Lemma room_by_code_In same_code st code room :
  room_by_code same_code st code = Some room -> room ∈ debateRooms st.
Proof.
  unfold room_by_code, getDebateRoomByCode.
  destruct (connected st); simpl; [|done]. by intros [? _]%head_filter_Some.
Qed.

Lemma room_of_In st i room :
  room_of st i = Some room -> room ∈ debateRooms st.
Proof.
  unfold room_of, getDebateRoomById.
  destruct (connected st); simpl; [|done]. by intros [? _]%head_filter_Some.
Qed.

Lemma set_room_ids j u st :
  id <$> debateRooms (set_room j u st) = id <$> debateRooms st.
Proof.
  unfold set_room, updateDebateRoom. destruct st as [[] rooms ps]; simpl; [|done].
  rewrite <- list_fmap_compose. apply list_fmap_ext.
  intros ? r _. simpl. by destruct (id r =? j).
Qed.

Lemma sublist_refl_eq {A} (l k : list A) : l = k -> sublist l k.
Proof. by intros ->. Qed.

(** One call on a store in which room [i] is not waiting any more. *)
Lemma closed_step same_code c st i room :
  NoDup (id <$> debateRooms st) ->
  room_of st i = Some room ->
  status room <> Status.waiting ->
  NoDup (id <$> debateRooms (room_call same_code c st)) /\
  (exists room', room_of (room_call same_code c st) i = Some room' /\
     status room' <> Status.waiting) /\
  sublist (seat <$> roster (room_call same_code c st) i) (seat <$> roster st i).
Proof.
  intros Hids Hroom Hstatus.
  destruct c as [u code t r n|u j|u j b|u j now|j now]; simpl.
  - destruct (join_cases same_code u code t r n st) as [[room0 Hmay]|[e ->]];
      [|by eauto].
    destruct (join_ok same_code u code t r n st room0 Hmay)
      as (Hrun & _ & Hothers & Hrooms).
    destruct Hmay as (Hcode & Hwaiting & Huser & Hrole & Hteam).
    assert (connected (snd (join same_code u code t r n st)) = connected st) as Hc.
    { apply role_taken in Hrole. apply team_check in Hteam as [Hgov Hopp].
      rewrite join_run, Hcode, Hwaiting, Huser, Hrole, Hgov, Hopp.
      rewrite bool_decide_eq_true_2 by done. apply connected_addParticipant. }
    rewrite (room_of_rooms st (snd (join same_code u code t r n st))) by done.
    rewrite Hrooms.
    split; [done|]. split; [by eauto|].
    rewrite Hothers; [done|]. intros ->.
    apply Hstatus. rewrite <- Hwaiting. f_equal.
    pose proof Hroom as [_ Hid]%room_of_Some.
    apply (key_unique id (debateRooms st));
      [done|by eapply room_of_In|by eapply room_by_code_In|done].
  - rewrite leave_run. cbn [snd].
    rewrite (room_of_rooms st (snd (removeParticipant j u st)))
      by (apply connected_removeParticipant || apply rooms_removeParticipant).
    rewrite rooms_removeParticipant.
    split; [done|]. split; [by eauto|].
    rewrite roster_removeParticipant. apply fmap_sublist, filter_sublist.
  - rewrite setReady_run. destruct (participant_of st j u); [|by eauto].
    cbn [snd].
    rewrite (room_of_rooms st (snd (updateParticipantReady _ b st)))
      by (apply connected_updateParticipantReady || apply rooms_updateParticipantReady).
    rewrite rooms_updateParticipantReady.
    split; [done|]. split; [by eauto|].
    rewrite roster_updateParticipantReady. apply sublist_refl_eq.
    rewrite <- list_fmap_compose. apply list_fmap_ext.
    intros ? q _. simpl. by destruct (_ =? _).
  - destruct (start_store u j now st) as [->|[n ->]]; [by eauto|].
    rewrite set_room_ids, room_of_set_room, Hroom, roster_set_room.
    split; [done|]. split; [|done].
    case_decide; eexists; (split; [reflexivity|]); simpl; done.
  - destruct (advanceSpeaker_store j now st) as [->|[->|[n ->]]]; [by eauto|..];
      rewrite set_room_ids, room_of_set_room, Hroom, roster_set_room;
      (split; [done|]); (split; [|done]);
      case_decide; eexists; (split; [reflexivity|]); simpl; done.
Qed.

Lemma closed_calls same_code cs : forall st i room,
  NoDup (id <$> debateRooms st) ->
  room_of st i = Some room ->
  status room <> Status.waiting ->
  sublist (seat <$> roster (room_calls same_code cs st) i) (seat <$> roster st i).
Proof.
  induction cs as [|c cs IH]; intros st i room Hids Hroom Hstatus; [done|].
  simpl.
  destruct (closed_step same_code c st i room Hids Hroom Hstatus)
    as (Hids' & (room' & Hroom' & Hstatus') & Hsub).
  etrans; [|exact Hsub]. by eapply IH.
Qed.

(** X9. Once a room has left status waiting (after [start], say), no sequence
    of [join], [leave], [setReady], [start] and [advanceSpeaker] calls brings
    anyone into it: whatever the calls, the seats of its roster are a
    sub-sequence of the seats it had.  (The ids of the rooms are a primary
    key.) *)
Theorem roster_closed_after_waiting same_code cs st i room :
  NoDup (id <$> debateRooms st) ->
  room_of st i = Some room ->
  status room <> Status.waiting ->
  sublist (seat <$> roster (room_calls same_code cs st) i) (seat <$> roster st i).
Proof. apply closed_calls. Qed.

Lemma roster_closed_after_waiting_witness :
  sublist
    (seat <$> roster
       (room_calls exact_code
          [DoJoin 103 "ABCDEF" government SpeakerRole.deputy_prime_minister 3;
           DoLeave 102 1; DoAdvanceSpeaker 1 1001]
          (snd (start 101 1 500 two_speaker_store))) 1)
    (seat <$> roster (snd (start 101 1 500 two_speaker_store)) 1).
Proof.
  apply (roster_closed_after_waiting exact_code _ _ 1
           {| id := 1; roomCode := "ABCDEF"; creatorId := 101;
              motionId := Some 5; status := Status.in_progress;
              currentSpeakerIndex := Some 0; currentPhase := Phase.debate;
              startedAt := Some 500; endedAt := None |}).
  - vm_compute. repeat constructor. intros H. apply list_elem_of_In in H. destruct H.
  - reflexivity.
  - discriminate.
Defined.

(** ** The holder of the floor leaves *)

Lemma is_active_anchor S speaker :
  is_active S speaker = has S (anchor_role (role speaker)).
Proof. unfold is_active. by destruct (role speaker). Qed.

(** With the current slot out of the active order, a call starts again at
    the first active slot, or completes the debate when there is none. *)
Lemma advance_stale i now st room :
  room_of st i = Some room ->
  (forall s, s ∈ activeSpeakingOrder fullSpeakingOrder (present_roles st i) ->
     Some (role s) <> role <$> current_speaker room) ->
  fst (advanceSpeaker i now st) =
  match activeSpeakingOrder fullSpeakingOrder (present_roles st i) with
  | [] => Returned {| completed := true; nextSpeakerIndex := None |}
  | first :: _ =>
      Returned {| completed := false; nextSpeakerIndex := Some (full_index first) |}
  end.
Proof.
  intros Hroom Hstale.
  destruct (advanceSpeaker_cases i now st room Hroom)
    as [[Hle ->]|(y & Hlt & Hy & ->)]; cbn [fst];
    rewrite findIndex_none in *
      by (intros s Hs; apply bool_decide_eq_false_2; by apply Hstale).
  - destruct (activeSpeakingOrder _ _); [done|simpl in Hle; lia].
  - destruct (activeSpeakingOrder _ _); [done|]. by injection Hy as ->.
Qed.

Lemma role_string_inj r1 r2 : role_string r1 = role_string r2 -> r1 = r2.
Proof. by destruct r1, r2. Qed.

(** X10. [leave] does not look at the room's status.  When the participant
    who holds the current slot (its role, or for a reply slot its anchor role)
    leaves a room with a well-formed roster, the next [advanceSpeaker] does
    not go on from where the debate stood: it returns the index of the first
    slot of what is left of the active order, or [completed = true] when
    nothing is left. *)
Theorem holder_leaves_restart u i now st room s p :
  room_of st i = Some room ->
  current_speaker room = Some s ->
  roster_wf (roster st i) ->
  p ∈ roster st i ->
  userId p = u ->
  role_string (speakerRole p) = anchor_role (role s) ->
  fst (advanceSpeaker i now (snd (leave u i st))) =
  match activeSpeakingOrder fullSpeakingOrder (present_roles (snd (leave u i st)) i) with
  | [] => Returned {| completed := true; nextSpeakerIndex := None |}
  | first :: _ =>
      Returned {| completed := false; nextSpeakerIndex := Some (full_index first) |}
  end.
Proof.
  intros Hroom Hcur (Hroles & _ & _) Hp Hu Hholds.
  assert (room_of (snd (leave u i st)) i = Some room) as Hroom'.
  { rewrite <- Hroom. rewrite leave_run. cbn [snd].
    apply room_of_rooms;
      [apply connected_removeParticipant|apply rooms_removeParticipant]. }
  apply (advance_stale i now _ room Hroom').
  intros s' Hs'. rewrite Hcur. simpl. intros [= Hrole].
  apply elem_of_filter in Hs' as [_ Hs'].
  rewrite (is_active_role _ s' s Hrole), is_active_anchor in Hs'.
  apply bool_decide_eq_true in Hs'. rewrite <- Hholds in Hs'.
  unfold present_roles, roles_of in Hs'.
  apply elem_of_list_to_set, list_elem_of_fmap in Hs' as (q & Hq%role_string_inj & Hin).
  rewrite roster_leave, decide_True in Hin by done.
  apply elem_of_filter in Hin as [Hin Hne].
  assert (p = q) as <- by (by apply (key_unique speakerRole (roster st i))).
  rewrite Hu, Z.eqb_refl in Hne. done.
Qed.

Lemma holder_leaves_restart_witness :
  fst (advanceSpeaker 1 1003 (snd (leave 103 1 three_speaker_store))) =
  Returned {| completed := false; nextSpeakerIndex := Some 0 |}.
Proof.
  apply (holder_leaves_restart 103 1 1003 three_speaker_store
           {| id := 1; roomCode := "ABCDEF"; creatorId := 101;
              motionId := Some 5; status := Status.in_progress;
              currentSpeakerIndex := Some 2; currentPhase := Phase.debate;
              startedAt := Some 500; endedAt := None |}
           {| role := deputy_prime_minister; team := government;
              label := "Deputy Prime Minister"; time := 420 |}
           (joined 3 government SpeakerRole.deputy_prime_minister true)).
  - reflexivity.
  - reflexivity.
  - vm_compute. repeat split; repeat constructor; vm_compute;
      intros H; apply list_elem_of_In in H; simpl in H; intuition discriminate.
  - vm_compute. apply list_elem_of_further, list_elem_of_further, list_elem_of_here.
  - reflexivity.
  - reflexivity.
Defined.

(** ** A debate visits its active order *)

Lemma advance_calls_nil i st : advance_calls i [] st = ([], st).
Proof. done. Qed.

(** From a slot of the active order with speakers left after it, a call moves
    to the next of them. *)
Lemma advance_to_next i now st room pre s0 s1 rest :
  room_of st i = Some room ->
  current_speaker room = Some s0 ->
  activeSpeakingOrder fullSpeakingOrder (present_roles st i)
    = (pre ++ s0 :: s1 :: rest)%list ->
  advanceSpeaker i now st =
    (Returned {| completed := false; nextSpeakerIndex := Some (full_index s1) |},
     set_room i
       {| set_status := None;
          set_currentPhase := None;
          set_currentSpeakerIndex := Some (full_index s1);
          set_startedAt := None;
          set_endedAt := None |} st).
Proof.
  intros Hroom Hcur Hact.
  pose proof (NoDup_key_filter role (is_active (present_roles st i))
                fullSpeakingOrder fullSpeakingOrder_NoDup_roles) as Hnd.
  fold (activeSpeakingOrder fullSpeakingOrder (present_roles st i)) in Hnd.
  assert (findIndex (fun s => bool_decide (Some (role s) = role <$> current_speaker room))
            (activeSpeakingOrder fullSpeakingOrder (present_roles st i))
          = Z.of_nat (length pre)) as Hpos.
  { rewrite Hcur, (findIndex_ext _ _ _ (current_test_Some s0)). unfold findIndex.
    rewrite (findIndex_from_key role _ 0 (length pre) s0 Hnd); [lia|].
    rewrite Hact. by rewrite list_lookup_middle. }
  destruct (advanceSpeaker_cases i now st room Hroom)
    as [[Hle _]|(y & _ & Hy & ->)].
  { rewrite Hpos, Hact, length_app in Hle. simpl in Hle. lia. }
  rewrite Hpos, Hact in Hy.
  replace (Z.of_nat (length pre) + 1) with (Z.of_nat (length pre + 1)) in Hy by lia.
  rewrite at_index_lookup in Hy.
  rewrite lookup_app_r in Hy by lia.
  replace (length pre + 1 - length pre)%nat with 1%nat in Hy by lia.
  simpl in Hy. by injection Hy as ->.
Qed.

Lemma walk_from i rest : forall pre s0 st room nows,
  room_of st i = Some room ->
  current_speaker room = Some s0 ->
  activeSpeakingOrder fullSpeakingOrder (present_roles st i)
    = (pre ++ s0 :: rest)%list ->
  length nows = S (length rest) ->
  fst (advance_calls i nows st) =
    (((fun s => Returned {| completed := false;
                            nextSpeakerIndex := Some (full_index s) |}) <$> rest)
     ++ [Returned {| completed := true; nextSpeakerIndex := None |}])%list.
Proof.
  induction rest as [|s1 rest IH]; intros pre s0 st room nows Hroom Hcur Hact Hlen;
    (destruct nows as [|now nows]; [done|]); injection Hlen as Hlen;
    rewrite advance_calls_cons; cbn [fst].
  - destruct nows; [|done]. rewrite advance_calls_nil. cbn [fst fmap list_fmap app].
    f_equal.
    rewrite (advance_last_slot i now st room s0); [done..|].
    rewrite Hact. apply last_snoc.
  - rewrite (advance_to_next i now st room pre s0 s1 rest) by done.
    cbn [fst snd]. rewrite fmap_cons. cbn [app]. f_equal.
    apply (IH (pre ++ [s0])%list s1 _ _ nows
             (room_of_set_room_eq st i _ room Hroom)).
    + rewrite apply_next. unfold current_speaker. cbn [currentSpeakerIndex].
      rewrite or_zero_Some.
      apply (at_index_findIndex_key role); [apply fullSpeakingOrder_NoDup_roles|].
      apply (active_order_full (present_roles st i)). rewrite Hact.
      apply elem_of_app. right. apply list_elem_of_further, list_elem_of_here.
    + rewrite present_roles_set_room, Hact. by rewrite <- app_assoc.
    + done.
Qed.

Lemma completed_flags_walk (rest : list Speaker) :
  completed_flags
    (((fun s => Returned {| completed := false;
                            nextSpeakerIndex := Some (full_index s) |}) <$> rest)
     ++ [Returned {| completed := true; nextSpeakerIndex := None |}])%list
  = (replicate (length rest) false ++ [true])%list.
Proof.
  unfold completed_flags. induction rest as [|s rest IH]; [done|].
  simpl. by f_equal.
Qed.

(** X11. A started debate gives every active slot its turn, once and in the
    order of the format.  When [start] has succeeded and the active order has
    [n] slots, the first [n - 1] calls of [advanceSpeaker] return
    [completed = false] with the full-format indices of the second to the
    last active slot, in that order, and the [n]-th call, no earlier one,
    returns [completed = true]. *)
Theorem debate_visits_active_order c i st room t0 nows :
  room_of st i = Some room ->
  creatorId room = c ->
  motion_attached room ->
  roster st i <> [] ->
  Forall (fun p => isReady p = Some true) (roster st i) ->
  length nows = length (activeSpeakingOrder fullSpeakingOrder (present_roles st i)) ->
  fst (advance_calls i nows (snd (start c i t0 st))) =
    (((fun s => Returned {| completed := false;
                            nextSpeakerIndex := Some (full_index s) |})
        <$> tail (activeSpeakingOrder fullSpeakingOrder (present_roles st i)))
     ++ [Returned {| completed := true; nextSpeakerIndex := None |}])%list /\
  completes_exactly_on
    (length (activeSpeakingOrder fullSpeakingOrder (present_roles st i)))
    (fst (advance_calls i nows (snd (start c i t0 st)))).
Proof.
  intros Hroom Hc Hmotion Hjoined Hready Hlen.
  pose proof (active_order_nonempty st i Hjoined) as Hne.
  destruct (activeSpeakingOrder fullSpeakingOrder (present_roles st i))
    as [|first rest] eqn:Hact; [done|].
  assert (fst (advance_calls i nows (snd (start c i t0 st))) =
    (((fun s => Returned {| completed := false;
                            nextSpeakerIndex := Some (full_index s) |}) <$> rest)
     ++ [Returned {| completed := true; nextSpeakerIndex := None |}])%list) as Hwalk.
  { rewrite (start_success c i t0 st room) by done. cbn [snd].
    apply (walk_from i rest [] first _ _ nows
             (room_of_set_room_eq st i _ room Hroom)).
    - unfold current_speaker.
      cbn [apply_updates currentSpeakerIndex set_currentSpeakerIndex].
      rewrite or_zero_Some, firstSpeakerLoop_filter.
      unfold activeSpeakingOrder in Hact. rewrite Hact.
      apply (at_index_findIndex_key role); [apply fullSpeakingOrder_NoDup_roles|].
      apply (active_order_full (present_roles st i)).
      unfold activeSpeakingOrder. rewrite Hact. apply list_elem_of_here.
    - by rewrite present_roles_set_room.
    - done. }
  split; [exact Hwalk|].
  unfold completes_exactly_on. rewrite Hwalk, completed_flags_walk. simpl.
  rewrite Nat.sub_0_r. apply take_ge.
  rewrite length_app, length_replicate. simpl. lia.
Qed.

Lemma debate_visits_active_order_witness :
  fst (advance_calls 1 [1001; 1002; 1003; 1004; 1005]
         (snd (start 101 1 500 partial_roster_store))) =
    [Returned {| completed := false; nextSpeakerIndex := Some 2 |};
     Returned {| completed := false; nextSpeakerIndex := Some 3 |};
     Returned {| completed := false; nextSpeakerIndex := Some 5 |};
     Returned {| completed := false; nextSpeakerIndex := Some 6 |};
     Returned {| completed := true; nextSpeakerIndex := None |}] /\
  completes_exactly_on 5
    (fst (advance_calls 1 [1001; 1002; 1003; 1004; 1005]
            (snd (start 101 1 500 partial_roster_store)))).
Proof.
  apply (debate_visits_active_order 101 1 partial_roster_store
           (created_room 1 101 5) 500 [1001; 1002; 1003; 1004; 1005]).
  - reflexivity.
  - reflexivity.
  - exists 5. split; [reflexivity|lia].
  - vm_compute. discriminate.
  - vm_compute. repeat constructor.
  - reflexivity.
Defined.

(** * The debate page *)

(** ** The page and the server read the same order and the same slot *)

Lemma page_active d :
  Debate.activeSpeakingOrder (Some d) =
  activeSpeakingOrder fullSpeakingOrder (roles_of (Debate.participants d)).
Proof. done. Qed.

Lemma page_current d :
  Debate.currentSpeaker (Some d) = current_speaker (Debate.room d).
Proof. done. Qed.

Lemma current_speaker_full room s :
  current_speaker room = Some s -> s ∈ fullSpeakingOrder.
Proof.
  intros [_ Hlook]%current_speaker_index. by eapply list_elem_of_lookup_2.
Qed.

Lemma speaks_in_anchor s p :
  Debate.speaks_in (Some s) p =
  bool_decide (role_string (speakerRole p) = anchor_role (role s)).
Proof.
  unfold Debate.speaks_in. simpl. by destruct (role s), (speakerRole p).
Qed.

Lemma speaks_in_None p : Debate.speaks_in None p = false.
Proof. done. Qed.

Lemma find_Some_elem {A} (f : A -> bool) (l : list A) x :
  List.find f l = Some x -> x ∈ l /\ f x = true.
Proof. intros [? ?]%List.find_some. by rewrite list_elem_of_In. Qed.

Lemma find_is_Some {A} (f : A -> bool) (l : list A) x :
  x ∈ l -> f x = true -> is_Some (List.find f l).
Proof.
  intros Hx Hfx. destruct (List.find f l) eqn:Hfind; [by eexists|].
  apply list_elem_of_In in Hx.
  rewrite (List.find_none _ _ Hfind x Hx) in Hfx. done.
Qed.

Lemma has_roles_of ps r :
  has (roles_of ps) r = true <->
  exists p, p ∈ ps /\ role_string (speakerRole p) = r.
Proof.
  unfold has, roles_of. rewrite bool_decide_eq_true, elem_of_list_to_set.
  rewrite list_elem_of_fmap.
  split; [intros (p & -> & Hp); by exists p|intros (p & Hp & <-); by exists p].
Qed.

(** A slot is in the active order iff someone holds its role, or its anchor
    role. *)
Lemma active_iff_holder ps s :
  s ∈ activeSpeakingOrder fullSpeakingOrder (roles_of ps) <->
  s ∈ fullSpeakingOrder /\
  exists p, p ∈ ps /\ role_string (speakerRole p) = anchor_role (role s).
Proof.
  unfold activeSpeakingOrder.
  by rewrite elem_of_filter, is_active_anchor, has_roles_of.
Qed.

Lemma current_participant_holds d p :
  Debate.currentParticipant (Some d) = Some p ->
  exists s, Debate.currentSpeaker (Some d) = Some s /\
    p ∈ Debate.participants d /\
    role_string (speakerRole p) = anchor_role (role s).
Proof.
  unfold Debate.currentParticipant. simpl. intros [Hp Hholds]%find_Some_elem.
  destruct (Debate.currentSpeaker (Some d)) as [s|]; [|done].
  exists s. rewrite speaks_in_anchor in Hholds.
  by apply bool_decide_eq_true in Hholds.
Qed.

Lemma current_participant_active d :
  is_Some (Debate.currentParticipant (Some d)) <->
  exists s, Debate.currentSpeaker (Some d) = Some s /\
    s ∈ Debate.activeSpeakingOrder (Some d).
Proof.
  split.
  - intros [p (s & Hs & Hp & Hrole)%current_participant_holds].
    exists s. split; [done|]. rewrite page_active. apply active_iff_holder.
    split; [|by eauto]. rewrite page_current in Hs.
    by eapply current_speaker_full.
  - intros (s & Hs & Hact). rewrite page_active in Hact.
    apply active_iff_holder in Hact as (_ & p & Hp & Hrole).
    unfold Debate.currentParticipant. simpl. rewrite Hs.
    apply (find_is_Some _ _ p); [done|].
    rewrite speaks_in_anchor. by apply bool_decide_eq_true.
Qed.

(** X12. The page finds a participant for the current slot exactly when that
    slot is in the active order it derives: no slot of the active order is
    without a speaker, and a slot outside it has none. *)
Theorem current_participant_iff_active d :
  is_Some (Debate.currentParticipant (Some d)) <->
  exists s, Debate.currentSpeaker (Some d) = Some s /\
    s ∈ Debate.activeSpeakingOrder (Some d).
Proof. apply current_participant_active. Qed.

(** ** Whose turn it is *)

Lemma slot_team s r :
  s ∈ fullSpeakingOrder ->
  role_string r = anchor_role (role s) ->
  team s = role_team r.
Proof.
  intros Hin%list_elem_of_In. simpl in Hin.
  repeat (destruct Hin as [<-|Hin]; [by destruct r|]). done.
Qed.

Lemma my_turn_holder d u :
  NoDup (speakerRole <$> Debate.participants d) ->
  Debate.isMyTurn (Some d) (Some u) = true <->
  exists s p, Debate.currentSpeaker (Some d) = Some s /\
    p ∈ Debate.participants d /\ userId p = u /\
    role_string (speakerRole p) = anchor_role (role s).
Proof.
  intros Hroles. unfold Debate.isMyTurn. rewrite bool_decide_eq_true. split.
  - destruct (Debate.currentParticipant (Some d)) as [p|] eqn:Hcur; [|done].
    intros [= Hu]. apply current_participant_holds in Hcur as (s & ? & ? & ?).
    by exists s, p.
  - intros (s & p & Hs & Hp & Hu & Hrole).
    destruct (proj2 (current_participant_active d)) as [q Hq].
    { exists s. split; [done|]. rewrite page_active. apply active_iff_holder.
      split; [|by eauto]. rewrite page_current in Hs.
      by eapply current_speaker_full. }
    rewrite Hq. simpl. f_equal. rewrite <- Hu. f_equal.
    apply current_participant_holds in Hq as (s' & Hs' & Hq & Hrole').
    assert (s' = s) as -> by congruence.
    apply (key_unique speakerRole (Debate.participants d)); [done..|].
    apply role_string_inj. congruence.
Qed.

(** X13. With no role held twice, the page tells a signed-in user that it is
    their turn exactly when that user holds the role of the current slot, or
    the anchor role of a reply slot.  A visitor who is not signed in is told
    so exactly when nobody holds the current slot. *)
Theorem my_turn_iff_holder d u :
  NoDup (speakerRole <$> Debate.participants d) ->
  (Debate.isMyTurn (Some d) (Some u) = true <->
   exists s p, Debate.currentSpeaker (Some d) = Some s /\
     p ∈ Debate.participants d /\ userId p = u /\
     role_string (speakerRole p) = anchor_role (role s)) /\
  (Debate.isMyTurn (Some d) None = true <->
   Debate.currentParticipant (Some d) = None).
Proof.
  intros Hroles. split; [by apply my_turn_holder|].
  unfold Debate.isMyTurn. rewrite bool_decide_eq_true.
  by destruct (Debate.currentParticipant (Some d)).
Qed.

Lemma my_turn_iff_holder_witness :
  Debate.isMyTurn
    (Some {| Debate.room :=
               {| id := 1; roomCode := "ABCDEF"; creatorId := 101;
                  motionId := Some 5; status := Status.in_progress;
                  currentSpeakerIndex := Some 7; currentPhase := Phase.debate;
                  startedAt := Some 500; endedAt := None |};
             Debate.participants := debateParticipants two_speaker_store |})
    (Some 101) = true.
Proof.
  destruct (my_turn_iff_holder
    {| Debate.room :=
         {| id := 1; roomCode := "ABCDEF"; creatorId := 101;
            motionId := Some 5; status := Status.in_progress;
            currentSpeakerIndex := Some 7; currentPhase := Phase.debate;
            startedAt := Some 500; endedAt := None |};
       Debate.participants := debateParticipants two_speaker_store |} 101)
    as [[_ Hturn] _].
  - vm_compute. repeat constructor; vm_compute;
      intros H; apply list_elem_of_In in H; simpl in H; intuition discriminate.
  - apply Hturn.
    exists {| role := government_reply; team := government;
              label := "Government Reply"; time := 240 |},
      (joined 1 government SpeakerRole.prime_minister true).
    repeat split. vm_compute. apply list_elem_of_here.
Defined.

(** ** Points of information *)






(** ** The page along a debate *)

Lemma advance_calls_snd_cons i now nows st :
  snd (advance_calls i (now :: nows) st) =
  snd (advance_calls i nows (snd (advanceSpeaker i now st))).
Proof. by rewrite advance_calls_cons. Qed.

(** Where a debate stands after some calls that leave speakers to come. *)
Lemma walk_state i nows : forall pre s0 rest st room,
  room_of st i = Some room ->
  current_speaker room = Some s0 ->
  activeSpeakingOrder fullSpeakingOrder (present_roles st i)
    = (pre ++ s0 :: rest)%list ->
  (length nows <= length rest)%nat ->
  exists room' s',
    room_of (snd (advance_calls i nows st)) i = Some room' /\
    roster (snd (advance_calls i nows st)) i = roster st i /\
    current_speaker room' = Some s' /\
    (pre ++ s0 :: rest)%list !! (length pre + length nows)%nat = Some s'.
Proof.
  induction nows as [|now nows IH]; intros pre s0 rest st room Hroom Hcur Hact Hlen.
  { exists room, s0. simpl. rewrite Nat.add_0_r. by rewrite list_lookup_middle. }
  destruct rest as [|s1 rest]; [simpl in Hlen; lia|].
  rewrite advance_calls_snd_cons.
  rewrite (advance_to_next i now st room pre s0 s1 rest) by done. cbn [snd].
  match goal with |- context [advance_calls i nows ?st'] =>
    destruct (IH (pre ++ [s0])%list s1 rest st' _
                (room_of_set_room_eq st i _ room Hroom))
      as (room' & s' & Hroom' & Hroster & Hcur' & Hlook)
  end.
  - rewrite apply_next. unfold current_speaker. cbn [currentSpeakerIndex].
    rewrite or_zero_Some.
    apply (at_index_findIndex_key role); [apply fullSpeakingOrder_NoDup_roles|].
    apply (active_order_full (present_roles st i)). rewrite Hact.
    apply elem_of_app. right. apply list_elem_of_further, list_elem_of_here.
  - rewrite present_roles_set_room, Hact. by rewrite <- app_assoc.
  - simpl in Hlen. lia.
  - exists room', s'. split; [done|]. split; [by rewrite Hroster, roster_set_room|].
    split; [done|]. rewrite <- app_assoc in Hlook. simpl in Hlook.
    rewrite length_app in Hlook. simpl in Hlook.
    cbn [length].
    by replace (length pre + S (length nows))%nat
      with (length pre + 1 + length nows)%nat by lia.
Qed.

Lemma page_follows i st0 room0 first rest nows d :
  room_of st0 i = Some room0 ->
  current_speaker room0 = Some first ->
  activeSpeakingOrder fullSpeakingOrder (present_roles st0 i) = first :: rest ->
  roster_wf (roster st0 i) ->
  (length nows <= length rest)%nat ->
  page_of (snd (advance_calls i nows st0)) i d ->
  Debate.speechNumber (Some d) = Z.of_nat (length nows) + 1 /\
  Debate.speechCount (Some d) = Z.of_nat (S (length rest)) /\
  exists s p,
    (first :: rest) !! length nows = Some s /\
    Debate.currentSpeaker (Some d) = Some s /\
    Debate.currentParticipant (Some d) = Some p /\
    participantTeam p = team s.
Proof.
  intros Hroom Hcur Hact (_ & _ & Hteams) Hlen [Hpage_room Hpage_roster].
  destruct (walk_state i nows [] first rest st0 room0 Hroom Hcur Hact Hlen)
    as (room' & s & Hroom' & Hroster & Hcur' & Hlook).
  simpl in Hlook.
  assert (Debate.room d = room') as Hd by congruence.
  assert (Debate.participants d = roster st0 i) as Hps by congruence.
  assert (Debate.activeSpeakingOrder (Some d) = first :: rest) as Hpage.
  { rewrite page_active, Hps. exact Hact. }
  assert (Debate.currentSpeaker (Some d) = Some s) as Hs
    by (by rewrite page_current, Hd).
  pose proof (NoDup_key_filter role (is_active (present_roles st0 i))
                fullSpeakingOrder fullSpeakingOrder_NoDup_roles) as Hnd.
  fold (activeSpeakingOrder fullSpeakingOrder (present_roles st0 i)) in Hnd.
  rewrite Hact in Hnd.
  split; [|split].
  - unfold Debate.speechNumber. rewrite Hpage, Hs.
    rewrite (findIndex_ext _ _ _ (current_test_Some s)). unfold findIndex.
    rewrite (findIndex_from_key role _ 0 (length nows) s Hnd Hlook). lia.
  - unfold Debate.speechCount. by rewrite Hpage.
  - destruct (proj2 (current_participant_active d)) as [p Hp].
    { exists s. split; [done|]. rewrite Hpage. by eapply list_elem_of_lookup_2. }
    exists s, p. split; [done|]. split; [done|]. split; [done|].
    apply current_participant_holds in Hp as (s' & Hs' & Hp & Hrole).
    assert (s' = s) as -> by congruence.
    rewrite Forall_forall in Hteams. rewrite Hps in Hp. rewrite (Hteams p Hp).
    symmetry. apply slot_team; [|done].
    rewrite page_current in Hs. by eapply current_speaker_full.
Qed.

(** X15. The page keeps step with the debate.  After a successful [start] on a
    well-formed roster and [k] calls of [advanceSpeaker], [k] less than the
    number [n] of active slots, the page built from the room and its roster
    shows "Speech k+1 of n", its current slot is slot [k] of the active order,
    and it finds the participant who speaks in it, who is on the team of the
    slot. *)
Theorem page_keeps_step c i st room t0 nows d :
  room_of st i = Some room ->
  creatorId room = c ->
  motion_attached room ->
  roster_wf (roster st i) ->
  roster st i <> [] ->
  Forall (fun p => isReady p = Some true) (roster st i) ->
  (length nows < length (activeSpeakingOrder fullSpeakingOrder (present_roles st i)))%nat ->
  page_of (snd (advance_calls i nows (snd (start c i t0 st)))) i d ->
  Debate.speechNumber (Some d) = Z.of_nat (length nows) + 1 /\
  Debate.speechCount (Some d) =
    Z.of_nat (length (activeSpeakingOrder fullSpeakingOrder (present_roles st i))) /\
  exists s p,
    activeSpeakingOrder fullSpeakingOrder (present_roles st i) !! length nows = Some s /\
    Debate.currentSpeaker (Some d) = Some s /\
    Debate.currentParticipant (Some d) = Some p /\
    participantTeam p = team s.
Proof.
  intros Hroom Hc Hmotion Hwf Hjoined Hready Hlen Hpage.
  destruct (activeSpeakingOrder fullSpeakingOrder (present_roles st i))
    as [|first rest] eqn:Hact; [simpl in Hlen; lia|].
  rewrite (start_success c i t0 st room) in Hpage by done. cbn [snd] in Hpage.
  eapply (page_follows i _ _ first rest nows d
            (room_of_set_room_eq st i _ room Hroom)); [| | |simpl in Hlen; lia|done].
  - unfold current_speaker.
    cbn [apply_updates currentSpeakerIndex set_currentSpeakerIndex].
    rewrite or_zero_Some, firstSpeakerLoop_filter.
    unfold activeSpeakingOrder in Hact. rewrite Hact.
    apply (at_index_findIndex_key role); [apply fullSpeakingOrder_NoDup_roles|].
    apply (active_order_full (present_roles st i)).
    unfold activeSpeakingOrder. rewrite Hact. apply list_elem_of_here.
  - by rewrite present_roles_set_room.
  - by rewrite roster_set_room.
Qed.

Lemma page_keeps_step_witness :
  Debate.speechNumber
    (Some {| Debate.room :=
               {| id := 1; roomCode := "ABCDEF"; creatorId := 101;
                  motionId := Some 5; status := Status.in_progress;
                  currentSpeakerIndex := Some 6; currentPhase := Phase.debate;
                  startedAt := Some 500; endedAt := None |};
             Debate.participants := debateParticipants two_speaker_store |})
  = 3.
Proof.
  destruct (page_keeps_step 101 1 two_speaker_store (created_room 1 101 5) 500
              [1001; 1002]
              {| Debate.room :=
                   {| id := 1; roomCode := "ABCDEF"; creatorId := 101;
                      motionId := Some 5; status := Status.in_progress;
                      currentSpeakerIndex := Some 6; currentPhase := Phase.debate;
                      startedAt := Some 500; endedAt := None |};
                 Debate.participants := debateParticipants two_speaker_store |})
    as (Hnumber & _).
  - reflexivity.
  - reflexivity.
  - exists 5. split; [reflexivity|lia].
  - vm_compute. repeat split; repeat constructor; vm_compute;
      intros H; apply list_elem_of_In in H; simpl in H; intuition discriminate.
  - vm_compute. discriminate.
  - vm_compute. repeat constructor.
  - vm_compute. lia.
  - split; reflexivity.
  - exact Hnumber.
Defined.

(** ** The clock *)

Lemma string_app_empty (b : string) : "" +:+ b = b.
Proof. reflexivity. Qed.

Lemma string_app_cons c (a b : string) : String c a +:+ b = String c (a +:+ b).
Proof. reflexivity. Qed.

Lemma string_length_app (a b : string) :
  String.length (a +:+ b) = (String.length a + String.length b)%nat.
Proof.
  induction a as [|c a IH]; [done|].
  rewrite string_app_cons. simpl. by rewrite IH.
Qed.

(** Two strings that end in suffixes of the same length and are equal have
    equal prefixes and equal suffixes. *)
Lemma string_app_inj_suffix (a a' b b' : string) :
  a +:+ b = a' +:+ b' -> String.length b = String.length b' ->
  a = a' /\ b = b'.
Proof.
  revert a'. induction a as [|c a IH]; intros [|c' a'];
    rewrite ?string_app_empty, ?string_app_cons; intros Heq Hlen.
  - done.
  - exfalso. rewrite Heq in Hlen. simpl in Hlen.
    rewrite string_length_app in Hlen. lia.
  - exfalso. rewrite <- Heq in Hlen. simpl in Hlen.
    rewrite string_length_app in Hlen. lia.
  - injection Heq as -> Heq. destruct (IH a' Heq Hlen) as [-> ->]. done.
Qed.

Lemma seconds_field (n : nat) :
  (n < 60)%nat ->
  String.length (Debate.padStart 2 "0" (pretty (Z.of_nat n))) = 2%nat /\
  two_digits (Debate.padStart 2 "0" (pretty (Z.of_nat n))) = Z.of_nat n.
Proof.
  intros Hn.
  do 60 (destruct n as [|n]; [vm_compute; split; reflexivity|]). lia.
Qed.

Lemma seconds_field_Z (r : Z) :
  0 <= r < 60 ->
  String.length (Debate.padStart 2 "0" (pretty r)) = 2%nat /\
  two_digits (Debate.padStart 2 "0" (pretty r)) = r.
Proof.
  intros Hr. rewrite <- (Z2Nat.id r) by lia. apply seconds_field. lia.
Qed.

Lemma formatTime_fields s :
  0 <= s ->
  Debate.formatTime s =
    pretty (s `div` 60) +:+ ":" +:+ Debate.padStart 2 "0" (pretty (s `mod` 60)).
Proof. intros Hs. unfold Debate.formatTime. by rewrite Z.rem_mod_nonneg by lia. Qed.

Lemma formatTime_inj s s' :
  0 <= s -> 0 <= s' -> Debate.formatTime s = Debate.formatTime s' -> s = s'.
Proof.
  intros Hs Hs'. rewrite !formatTime_fields by done. intros Heq.
  pose proof (Z.mod_pos_bound s 60 ltac:(lia)) as Hr.
  pose proof (Z.mod_pos_bound s' 60 ltac:(lia)) as Hr'.
  destruct (seconds_field_Z _ Hr) as [Hlen Hdigits].
  destruct (seconds_field_Z _ Hr') as [Hlen' Hdigits'].
  apply string_app_inj_suffix in Heq as [Hmins Hsecs];
    [|by rewrite !string_length_app, Hlen, Hlen'].
  apply (inj pretty) in Hmins.
  rewrite !string_app_cons, !string_app_empty in Hsecs. injection Hsecs as Hsecs.
  rewrite (Z.div_mod s 60), (Z.div_mod s' 60) by lia.
  rewrite Hmins. f_equal. rewrite <- Hdigits, <- Hdigits'. by rewrite Hsecs.
Qed.

(** X16. For a time of a whole number of seconds from 0 to
    [Number.MAX_SAFE_INTEGER], [formatTime] writes the minutes, a colon and
    exactly two characters that are the two decimal digits of the seconds
    within the minute; two such times are displayed alike only if they are
    the same. *)
Theorem formatTime_readable s s' :
  0 <= s <= Debate.MAX_SAFE_INTEGER ->
  0 <= s' <= Debate.MAX_SAFE_INTEGER ->
  (exists field,
     Debate.formatTime s = pretty (s `div` 60) +:+ ":" +:+ field /\
     String.length field = 2%nat /\
     two_digits field = s `mod` 60) /\
  (Debate.formatTime s = Debate.formatTime s' -> s = s').
Proof.
  intros [Hs _] [Hs' _]. split; [|by apply formatTime_inj].
  exists (Debate.padStart 2 "0" (pretty (s `mod` 60))).
  split; [by apply formatTime_fields|].
  apply seconds_field_Z, Z.mod_pos_bound. lia.
Qed.

Lemma formatTime_readable_witness :
  (exists field,
     Debate.formatTime 425 = pretty (425 `div` 60) +:+ ":" +:+ field /\
     String.length field = 2%nat /\
     two_digits field = 425 `mod` 60) /\
  (Debate.formatTime 425 = Debate.formatTime 65 -> 425 = 65).
Proof. apply (formatTime_readable 425 65); vm_compute; split; discriminate. Defined.

(** ** The live transcript *)

Lemma place_Permutation a l : LiveTranscript.place a l ≡ₚ a :: l.
Proof.
  induction l as [|b l IH]; simpl; [done|].
  case_match; [done|]. rewrite IH. apply Permutation_swap.
Qed.

Lemma sort_Permutation l : LiveTranscript.sort l ≡ₚ l.
Proof.
  induction l as [|a l IH]; simpl; [done|].
  by rewrite place_Permutation, IH.
Qed.

Lemma place_in_sequence a l :
  in_sequence l -> in_sequence (LiveTranscript.place a l).
Proof.
  unfold in_sequence. induction l as [|b l IH]; intros Hs; simpl.
  - repeat constructor.
  - apply StronglySorted_inv in Hs as [Hl Hb]. case_match eqn:Hcmp.
    + apply Z.leb_le in Hcmp. constructor; [by constructor|].
      constructor; [lia|]. eapply Forall_impl; [exact Hb|]. simpl. lia.
    + apply Z.leb_gt in Hcmp. constructor; [by apply IH|].
      rewrite place_Permutation. constructor; [lia|done].
Qed.

Lemma sort_in_sequence l : in_sequence (LiveTranscript.sort l).
Proof.
  induction l as [|a l IH]; simpl; [constructor|]. by apply place_in_sequence.
Qed.

Lemma sort_of_in_sequence l : in_sequence l -> LiveTranscript.sort l = l.
Proof.
  unfold in_sequence. induction l as [|a l IH]; intros Hs; simpl; [done|].
  apply StronglySorted_inv in Hs as [Hl Ha]. rewrite IH by done.
  destruct l as [|b l]; simpl; [done|].
  apply Forall_cons in Ha as [Hab _].
  by rewrite (proj2 (Z.leb_le _ _)) by lia.
Qed.

Lemma Math_max_bounds x xs :
  Forall (fun y => y <= LiveTranscript.Math_max x xs) (x :: xs).
Proof.
  induction xs as [|y xs IH]; simpl.
  - repeat constructor. lia.
  - apply Forall_cons in IH as [Hx Hxs]. constructor; [lia|].
    constructor; [lia|]. eapply Forall_impl; [exact Hxs|]. simpl. lia.
Qed.

Lemma max_sequence_bounds l :
  Forall (fun s => LiveTranscript.sequenceNumber s <= max_sequence l) l.
Proof.
  destruct l as [|s0 rest]; [constructor|].
  pose proof (Math_max_bounds (LiveTranscript.sequenceNumber s0)
                (LiveTranscript.sequenceNumber <$> rest)) as Hb.
  change (LiveTranscript.sequenceNumber s0 ::
          (LiveTranscript.sequenceNumber <$> rest))
    with (LiveTranscript.sequenceNumber <$> (s0 :: rest)) in Hb.
  rewrite Forall_forall in Hb. apply Forall_forall. intros s Hs.
  apply Hb, list_elem_of_fmap. by exists s.
Qed.

(** What a poll with a non-empty answer computes. *)
Lemma onTranscriptData_run newSegments st :
  newSegments <> [] ->
  LiveTranscript.onTranscriptData newSegments st =
    {| LiveTranscript.liveTranscript :=
         LiveTranscript.sort
           (LiveTranscript.liveTranscript st ++
            List.filter
              (fun s => negb (bool_decide
                 (LiveTranscript.id s ∈ ids (LiveTranscript.liveTranscript st))))
              newSegments)%list;
       LiveTranscript.lastSequence :=
         Z.max (LiveTranscript.lastSequence st) (max_sequence newSegments) |}.
Proof.
  intros Hne. destruct newSegments as [|s0 rest]; [done|].
  unfold LiveTranscript.onTranscriptData, max_sequence. cbn [fmap list_fmap].
  f_equal. f_equal. f_equal. apply filter_ext. intros s.
  f_equal. apply bool_decide_ext. unfold ids. by rewrite elem_of_list_to_set.
Qed.

Lemma onTranscriptData_nil st : LiveTranscript.onTranscriptData [] st = st.
Proof. reflexivity. Qed.

Lemma poll_content newSegments st :
  let st' := LiveTranscript.onTranscriptData newSegments st in
  LiveTranscript.liveTranscript st ⊆+ LiveTranscript.liveTranscript st' /\
  (forall s, s ∈ LiveTranscript.liveTranscript st' ->
     s ∈ LiveTranscript.liveTranscript st \/
     s ∈ newSegments /\
     LiveTranscript.id s ∉ ids (LiveTranscript.liveTranscript st)) /\
  (forall s, s ∈ newSegments ->
     LiveTranscript.id s ∈ ids (LiveTranscript.liveTranscript st')) /\
  (NoDup (ids (LiveTranscript.liveTranscript st)) ->
   NoDup (ids newSegments) ->
   NoDup (ids (LiveTranscript.liveTranscript st'))).
Proof.
  intros st'. subst st'.
  destruct (decide (newSegments = [])) as [->|Hne].
  { rewrite onTranscriptData_nil. repeat split; try done.
    - intros s Hs. by left.
    - intros s Hs. by apply elem_of_nil in Hs. }
  rewrite (onTranscriptData_run newSegments st Hne).
  cbn [LiveTranscript.liveTranscript].
  set (prev := LiveTranscript.liveTranscript st).
  set (uniqueNew := List.filter _ newSegments).
  assert (forall s, s ∈ uniqueNew <->
            s ∈ newSegments /\ LiveTranscript.id s ∉ ids prev) as Hunique.
  { intros s. unfold uniqueNew. rewrite elem_of_filter, negb_true_iff.
    by rewrite bool_decide_eq_false. }
  repeat split.
  - rewrite sort_Permutation. by apply submseteq_inserts_r.
  - intros s. rewrite sort_Permutation, elem_of_app, Hunique. tauto.
  - intros s Hs. unfold ids. rewrite sort_Permutation, fmap_app, elem_of_app.
    destruct (decide (LiveTranscript.id s ∈ ids prev)) as [Hin|Hout];
      [by left|right].
    apply list_elem_of_fmap. exists s. split; [done|]. by apply Hunique.
  - intros Hprev Hnew. unfold ids. rewrite sort_Permutation, fmap_app.
    apply NoDup_app. split; [done|]. split.
    + intros i Hi (s & -> & Hs)%list_elem_of_fmap.
      apply Hunique in Hs as [_ Hout]. by apply Hout.
    + eapply sublist_NoDup; [exact Hnew|].
      unfold ids. apply fmap_sublist. apply filter_sublist.
Qed.

Lemma poll_order newSegments st :
  newSegments <> [] \/ in_sequence (LiveTranscript.liveTranscript st) ->
  in_sequence
    (LiveTranscript.liveTranscript
       (LiveTranscript.onTranscriptData newSegments st)).
Proof.
  intros Hcase. destruct (decide (newSegments = [])) as [->|Hne].
  - rewrite onTranscriptData_nil. by destruct Hcase.
  - rewrite (onTranscriptData_run newSegments st Hne).
    apply sort_in_sequence.
Qed.

Lemma filter_none {A} (p : A -> bool) (l : list A) :
  (forall x, x ∈ l -> p x = false) -> List.filter p l = [].
Proof.
  induction l as [|a l IH]; intros Hp; simpl; [done|].
  rewrite (Hp a) by apply list_elem_of_here.
  apply IH. intros x Hx. apply Hp. by apply list_elem_of_further.
Qed.

(** A poll whose entries are all shown already leaves a transcript that is in
    sequence as it is. *)
Lemma poll_known newSegments st :
  in_sequence (LiveTranscript.liveTranscript st) ->
  (forall s, s ∈ newSegments ->
     LiveTranscript.id s ∈ ids (LiveTranscript.liveTranscript st)) ->
  LiveTranscript.liveTranscript (LiveTranscript.onTranscriptData newSegments st) =
    LiveTranscript.liveTranscript st.
Proof.
  intros Hseq Hknown. destruct (decide (newSegments = [])) as [->|Hne].
  { by rewrite onTranscriptData_nil. }
  rewrite (onTranscriptData_run newSegments st Hne).
  cbn [LiveTranscript.liveTranscript].
  rewrite filter_none, app_nil_r; [by apply sort_of_in_sequence|].
  intros s Hs. apply negb_false_iff, bool_decide_eq_true. by apply Hknown.
Qed.

Lemma poll_twice newSegments st :
  LiveTranscript.onTranscriptData newSegments
    (LiveTranscript.onTranscriptData newSegments st) =
  LiveTranscript.onTranscriptData newSegments st.
Proof.
  destruct (decide (newSegments = [])) as [->|Hne].
  { by rewrite !onTranscriptData_nil. }
  set (st' := LiveTranscript.onTranscriptData newSegments st).
  assert (LiveTranscript.liveTranscript
            (LiveTranscript.onTranscriptData newSegments st') =
          LiveTranscript.liveTranscript st') as Hlt.
  { apply poll_known.
    - apply poll_order. by left.
    - apply (poll_content newSegments st). }
  rewrite (onTranscriptData_run newSegments st' Hne) in Hlt |- *.
  cbn [LiveTranscript.liveTranscript] in Hlt. rewrite Hlt.
  subst st'. rewrite (onTranscriptData_run newSegments st Hne).
  cbn [LiveTranscript.liveTranscript LiveTranscript.lastSequence].
  f_equal. lia.
Qed.

(** What the load of the whole transcript computes. *)
Lemma onFullTranscript_run rendered segments queued :
  LiveTranscript.onFullTranscript rendered segments queued =
    if bool_decide (segments <> [] /\ LiveTranscript.lastSequence rendered = 0)
    then {| LiveTranscript.liveTranscript := segments;
            LiveTranscript.lastSequence := max_sequence segments |}
    else queued.
Proof.
  destruct segments as [|s0 rest].
  - rewrite bool_decide_eq_false_2; [done|]. by intros [? _].
  - unfold LiveTranscript.onFullTranscript, max_sequence. cbn [fmap list_fmap].
    destruct (decide (LiveTranscript.lastSequence rendered = 0)) as [H0|H0].
    + by rewrite !bool_decide_eq_true_2.
    + rewrite !bool_decide_eq_false_2; [done| |done]. by intros [_ ?].
Qed.

Lemma commit_snoc rendered effects a :
  commit rendered (effects ++ [a]) =
    run_effect rendered (commit rendered effects) a.
Proof. unfold commit. by rewrite foldl_app. Qed.

Lemma on_commits_snoc commits effects :
  on_commits (commits ++ [effects]) = commit (on_commits commits) effects.
Proof. unfold on_commits. by rewrite foldl_app. Qed.

Lemma poll_last_sequence newSegments st :
  LiveTranscript.lastSequence st <=
    LiveTranscript.lastSequence (LiveTranscript.onTranscriptData newSegments st).
Proof.
  destruct (decide (newSegments = [])) as [->|Hne].
  - by rewrite onTranscriptData_nil.
  - rewrite (onTranscriptData_run newSegments st Hne).
    cbn [LiveTranscript.lastSequence]. lia.
Qed.

Lemma poll_bounded newSegments st :
  bounded st -> bounded (LiveTranscript.onTranscriptData newSegments st).
Proof.
  intros Hb. destruct (decide (newSegments = [])) as [->|Hne].
  { by rewrite onTranscriptData_nil. }
  unfold bounded in *. rewrite (onTranscriptData_run newSegments st Hne).
  cbn [LiveTranscript.liveTranscript LiveTranscript.lastSequence].
  rewrite sort_Permutation. apply Forall_app. split.
  - eapply Forall_impl; [exact Hb|]. simpl. lia.
  - apply Forall_forall. intros s [Hs _]%elem_of_filter.
    pose proof (max_sequence_bounds newSegments) as Hm.
    rewrite Forall_forall in Hm. specialize (Hm s Hs). lia.
Qed.

(** The load keeps the bound whatever the render it belongs to has seen. *)
Lemma load_bounded rendered segments queued :
  bounded queued ->
  bounded (LiveTranscript.onFullTranscript rendered segments queued).
Proof.
  intros Hb. rewrite onFullTranscript_run. case_bool_decide; [|done].
  apply max_sequence_bounds.
Qed.

Lemma run_effect_bounded rendered queued a :
  bounded queued -> bounded (run_effect rendered queued a).
Proof.
  destruct a; simpl; [by apply poll_bounded|by apply load_bounded].
Qed.

Lemma commit_bounded rendered effects :
  bounded rendered -> bounded (commit rendered effects).
Proof.
  intros Hb. induction effects as [|a effects IH] using rev_ind; [done|].
  rewrite commit_snoc. by apply run_effect_bounded.
Qed.

Lemma commits_bounded commits : bounded (on_commits commits).
Proof.
  induction commits as [|effects commits IH] using rev_ind.
  - constructor.
  - rewrite on_commits_snoc. by apply commit_bounded.
Qed.

(** A commit after a render with [lastSequence] other than 0 does not lower
    it: the load does nothing then. *)
Lemma commit_last_sequence rendered effects :
  LiveTranscript.lastSequence rendered <> 0 ->
  LiveTranscript.lastSequence rendered <=
    LiveTranscript.lastSequence (commit rendered effects).
Proof.
  intros Hseen. induction effects as [|a effects IH] using rev_ind;
    [unfold commit; simpl; lia|].
  rewrite commit_snoc. destruct a as [newSegments|segments]; simpl.
  - pose proof (poll_last_sequence newSegments (commit rendered effects)). lia.
  - rewrite onFullTranscript_run, bool_decide_eq_false_2; [done|].
    by intros [_ ?].
Qed.

Lemma run_effect_distinct rendered queued a :
  NoDup (ids (answer_segments a)) ->
  NoDup (ids (LiveTranscript.liveTranscript queued)) ->
  NoDup (ids (LiveTranscript.liveTranscript (run_effect rendered queued a))).
Proof.
  intros Ha Hq. destruct a as [newSegments|segments];
    cbn [run_effect answer_segments] in *.
  - by apply (poll_content newSegments queued).
  - rewrite onFullTranscript_run. by case_bool_decide.
Qed.

Lemma commit_distinct rendered effects :
  Forall (fun a => NoDup (ids (answer_segments a))) effects ->
  NoDup (ids (LiveTranscript.liveTranscript rendered)) ->
  NoDup (ids (LiveTranscript.liveTranscript (commit rendered effects))).
Proof.
  intros Hall Hr. induction effects as [|a effects IH] using rev_ind; [done|].
  apply Forall_app in Hall as [Hall Ha]. apply Forall_cons in Ha as [Ha _].
  rewrite commit_snoc. apply run_effect_distinct; [done|by apply IH].
Qed.

Lemma commits_distinct commits :
  Forall (Forall (fun a => NoDup (ids (answer_segments a)))) commits ->
  NoDup (ids (LiveTranscript.liveTranscript (on_commits commits))).
Proof.
  induction commits as [|effects commits IH] using rev_ind; intros Hall.
  - constructor.
  - apply Forall_app in Hall as [Hall He]. apply Forall_cons in He as [He _].
    rewrite on_commits_snoc. apply commit_distinct; [done|by apply IH].
Qed.

(** A poll answer and a load that come to the same render, the first of the
    page: the load reads [lastSequence] 0 and its values replace what the
    poll has queued. *)
Lemma poll_and_load_in_one_commit :
  commit LiveTranscript.initial
    [Polled [entry 13 3]; Loaded [entry 11 1; entry 12 2]] =
  {| LiveTranscript.liveTranscript := [entry 11 1; entry 12 2];
     LiveTranscript.lastSequence := 2 |}.
Proof. reflexivity. Qed.

(** X17. A poll answer never removes an entry from the transcript; what it
    adds are entries of the answer whose id was not shown yet; after it every
    id of the answer is shown; and if neither the transcript nor the answer
    holds an id twice, the new transcript holds none twice. *)
Theorem poll_adds_only_new_ids newSegments st :
  let st' := LiveTranscript.onTranscriptData newSegments st in
  LiveTranscript.liveTranscript st ⊆+ LiveTranscript.liveTranscript st' /\
  (forall s, s ∈ LiveTranscript.liveTranscript st' ->
     s ∈ LiveTranscript.liveTranscript st \/
     s ∈ newSegments /\
     LiveTranscript.id s ∉ ids (LiveTranscript.liveTranscript st)) /\
  (forall s, s ∈ newSegments ->
     LiveTranscript.id s ∈ ids (LiveTranscript.liveTranscript st')) /\
  (NoDup (ids (LiveTranscript.liveTranscript st)) ->
   NoDup (ids newSegments) ->
   NoDup (ids (LiveTranscript.liveTranscript st'))).
Proof. apply poll_content. Qed.

(** X18. After a poll answer that is not empty the transcript is in the order
    of the sequence numbers (an empty answer keeps the order it finds), and
    the same answer arriving a second time changes neither the transcript nor
    [lastSequence]. *)
Theorem poll_orders_and_repeats newSegments st :
  (newSegments <> [] \/ in_sequence (LiveTranscript.liveTranscript st) ->
   in_sequence
     (LiveTranscript.liveTranscript
        (LiveTranscript.onTranscriptData newSegments st))) /\
  LiveTranscript.onTranscriptData newSegments
    (LiveTranscript.onTranscriptData newSegments st) =
  LiveTranscript.onTranscriptData newSegments st.
Proof. split; [apply poll_order|apply poll_twice]. Qed.

(** X19. Whatever effects run in whatever commits, a poll answer and a load
    in one commit included, no shown entry has a sequence number above
    [lastSequence], the number the next poll asks the server to go beyond.
    A poll answer never lowers [lastSequence], and no commit lowers it after a
    render in which it is not 0. *)
Theorem last_sequence_covers_transcript commits newSegments effects :
  let st := on_commits commits in
  Forall
    (fun s => LiveTranscript.sequenceNumber s <= LiveTranscript.lastSequence st)
    (LiveTranscript.liveTranscript st) /\
  LiveTranscript.lastSequence st <=
    LiveTranscript.lastSequence (LiveTranscript.onTranscriptData newSegments st) /\
  (LiveTranscript.lastSequence st <> 0 ->
   LiveTranscript.lastSequence st <=
     LiveTranscript.lastSequence (commit st effects)).
Proof.
  split; [apply commits_bounded|].
  split; [apply poll_last_sequence|apply commit_last_sequence].
Qed.

(** X20. If no answer of the server holds an id twice, the transcript never
    shows an id twice, whatever effects run in whatever commits, a poll
    answer and a load in one commit included. *)
Theorem transcript_ids_distinct commits :
  Forall (Forall (fun a => NoDup (ids (answer_segments a)))) commits ->
  NoDup (ids (LiveTranscript.liveTranscript (on_commits commits))).
Proof. apply commits_distinct. Qed.

Lemma transcript_ids_distinct_witness :
  Forall (Forall (fun a => NoDup (ids (answer_segments a)))) overlapping_commits /\
  NoDup (ids (LiveTranscript.liveTranscript (on_commits overlapping_commits))).
Proof.
  assert (Forall (Forall (fun a => NoDup (ids (answer_segments a))))
            overlapping_commits) as Hall.
  { repeat (apply Forall_cons_2; [|try apply Forall_nil_2]);
      repeat (apply Forall_cons_2; [|try apply Forall_nil_2]);
      unfold ids; cbn [answer_segments fmap list_fmap entry LiveTranscript.id];
      apply (bool_decide_unpack _); vm_compute; exact I. }
  split; [exact Hall|]. exact (transcript_ids_distinct overlapping_commits Hall).
Defined.
